(** * The plugin manager of the haiku server (lib/PluginManager.js)

    A shallow embedding of the [PluginManager] class and of the part of
    the Node.js host it talks to, followed by the properties of its
    registry, loader, initialisation and hook chains. *)

From Stdlib Require Import String Ascii List ZArith Bool Lia.
From stdpp Require Import base option list gmap strings pretty.
Import ListNotations.

Local Open Scope string_scope.
Local Open Scope list_scope.

(** ** JavaScript data *)

(** The values that travel through hook chains. *)
#[local] Unset Elimination Schemes.
Inductive value : Type :=
| VUndefined
| VNull
| VBool (b : bool)
| VNum (n : Z)
| VStr (s : string)
| VArr (items : list value)
| VObj (fields : list (string * value)).
#[local] Set Elimination Schemes.

(** [output !== undefined] *)
Definition defined (v : value) : bool :=
  match v with
  | VUndefined => false
  | _ => true
  end.

(** What a [throw] or a rejected promise carries: an [Error] object with
    its [message], or any other value ([throw null], [Promise.reject(42)]). *)
Inductive JsError : Type :=
| Error (text : string)
| Thrown (v : value).

(** [fields[key]] of an object literal. *)
Fixpoint field (key : string) (fields : list (string * value)) : option value :=
  match fields with
  | [] => None
  | (k, v) :: rest => if String.eqb k key then Some v else field key rest
  end.

(** How a call ends: it returns, or it throws (for an [async] function:
    the awaited promise is fulfilled, or it is rejected). *)
Inductive completion (A : Type) : Type :=
| Normal (a : A)
| Throw (e : JsError).
Arguments Normal {A} a.
Arguments Throw {A} e.

(** [error.message] on what a [catch] clause has caught. Reading a property
    of [null] or [undefined] throws a [TypeError]; on any other value that
    has no such property it gives [undefined]. *)
Definition message (error : JsError) : completion value :=
  match error with
  | Error text => Normal (VStr text)
  | Thrown VUndefined =>
      Throw (Error "Cannot read properties of undefined (reading 'message')")
  | Thrown VNull =>
      Throw (Error "Cannot read properties of null (reading 'message')")
  | Thrown (VObj fields) =>
      Normal (match field "message" fields with Some v => v | None => VUndefined end)
  | Thrown _ => Normal VUndefined
  end.

(** ** String helpers of the JavaScript standard library *)

Module Js.

(** [s.startsWith(p)] *)
Fixpoint startsWith (p s : string) : bool :=
  match p, s with
  | EmptyString, _ => true
  | String a p', String b s' => if Ascii.eqb a b then startsWith p' s' else false
  | String _ _, EmptyString => false
  end.

(** [s.slice(n)] *)
Fixpoint slice (n : nat) (s : string) : string :=
  match n, s with
  | O, _ => s
  | S n', String _ s' => slice n' s'
  | S _, EmptyString => EmptyString
  end.

(** [s.endsWith(p)] *)
Definition endsWith (p s : string) : bool :=
  (String.length p <=? String.length s)%nat
  && String.eqb (slice (String.length s - String.length p) s) p.

(** [s.replace(p, r)] with a string pattern: the first occurrence of [p],
    scanning from the left, is replaced; nothing changes when there is
    none. *)
Fixpoint replace (p r s : string) : string :=
  if startsWith p s then r ++ slice (String.length p) s
  else match s with
       | EmptyString => EmptyString
       | String c s' => String c (replace p r s')
       end.

(** [s.split(sep)] for a one-character separator: never empty. *)
Fixpoint split (sep : ascii) (s : string) : list string :=
  match s with
  | EmptyString => [EmptyString]
  | String c s' =>
      if Ascii.eqb c sep then EmptyString :: split sep s'
      else match split sep s' with
           | [] => [String c EmptyString]
           | seg :: segs => String c seg :: segs
           end
  end.

(** [xs.pop()] on the array a [split] produced (read only). *)
Definition pop (xs : list string) : string := List.last xs EmptyString.

End Js.

(** The double quote that the template literals of the source contain. *)
Definition dq : string := String (ascii_of_nat 34) EmptyString.

(** [`${n}`] for a length or a size. *)
Definition decimal (n : nat) : string := pretty n.

(** ** Plugin modules *)

(** A middleware function is opaque to the manager, which stores it and
    hands it back; it is identified by a number. *)
Definition middlewareFn : Type := nat.

(** [plugin.metadata]; every field is optional. *)
Record metadata : Type := Metadata {
  md_name : option string;
  md_version : option string;
  md_description : option string;
  md_author : option string
}.

(** [{}] *)
Definition no_metadata : metadata := Metadata None None None None.

Section Manager.

(** What plugin code can read and write besides the manager: the
    Express application and its routes, counters, the clock, ... *)
Context {ext : Type}.

(** A hook callback [(data) => data'], possibly [async]: on an input it
    returns a value (maybe [undefined]) or throws. It may read and write
    the world outside; the callbacks of this repository make no call on
    the manager. *)
Definition callback : Type := value -> ext -> completion value * ext.

(** What an [init] body does to the manager it is handed: the plugins of
    this repository call [addMiddleware] and [registerHook] on it. *)
Inductive effect : Type :=
| AddMiddleware (mw : middlewareFn)
| RegisterHook (hookName : string) (cb : callback).

(** [async init(app, pluginManager)]: the calls it made on the manager,
    and whether it returned or threw after them. *)
Definition initFn : Type :=
  value -> ext -> (list effect * completion unit) * ext.

(** The [init] property of a module. *)
Inductive initField : Type :=
| InitMissing
| InitNotFunction (v : value)
| InitFunction (f : initFn).

(** [module.exports] of a plugin file. *)
Record plugin : Type := Plugin {
  plugin_metadata : option metadata;
  plugin_init : initField
}.

(** The record [register] stores under a name. *)
Record pluginData : Type := PluginData {
  instance : plugin;
  enabled : bool;
  metadata_of : metadata
}.

(** The fields of a [PluginManager]. [plugins] is a JavaScript [Map]:
    it iterates in insertion order, and [register] only ever adds a key
    that is not there, so it is kept as the list of its entries. *)
Record PluginManager : Type := Manager {
  plugins : list (string * pluginData);
  hooks : gmap string (list callback);
  middleware : list middlewareFn;
  initialized : bool
}.

(** [new PluginManager()] *)
Definition constructor : PluginManager :=
  Manager [] ∅ [] false.

(** ** The host *)

(** What the loader asks of Node.js: [fs.existsSync] (something, file or
    directory, is at the path), [fs.readdirSync] (the names in a directory
    in the order the platform enumerates them; it throws on a path that is
    no directory), [path.join] and [require]. *)
Record Host : Type := {
  existsSync : string -> bool;
  readdirSync : string -> completion (list string);
  path_join : string -> string -> string;
  require : string -> completion plugin
}.

(** ** The world a method runs in *)

Inductive level : Type := LLog | LWarn | LError.

(** The second argument of a [console] call. *)
Inductive extra : Type :=
| NoExtra
| ErrorObject (e : JsError)
| Printed (v : value).

(** One call of [console.log], [console.warn] or [console.error]. *)
Record consoleEntry : Type := Console {
  c_level : level;
  c_text : string;
  c_extra : extra
}.

(** Calls from the manager into plugin code, kept as a history. *)
Inductive call : Type :=
| InitCalled (name : string)
| HookRun (hookName : string) (data : value)
| CallbackCalled (hookName : string) (input : value).

Record world : Type := World {
  this : PluginManager;
  console : list consoleEntry;
  history : list call;
  outside : ext
}.

(** Methods are state transformers that may throw. *)
Definition M (A : Type) : Type := world -> completion A * world.

Definition ret {A} (a : A) : M A := fun w => (Normal a, w).

Definition throw {A} (e : JsError) : M A := fun w => (Throw e, w).

Definition bind {A B} (c : M A) (k : A -> M B) : M B :=
  fun w =>
    match c w with
    | (Normal a, w') => k a w'
    | (Throw e, w') => (Throw e, w')
    end.

(** [try { c } catch (error) { handler }] *)
Definition try_catch {A} (c : M A) (handler : JsError -> M A) : M A :=
  fun w =>
    match c w with
    | (Normal a, w') => (Normal a, w')
    | (Throw e, w') => handler e w'
    end.

End Manager.

Arguments callback : clear implicits.
Arguments effect : clear implicits.
Arguments initFn : clear implicits.
Arguments initField : clear implicits.
Arguments plugin : clear implicits.
Arguments pluginData : clear implicits.
Arguments PluginManager : clear implicits.
Arguments Host : clear implicits.
Arguments world : clear implicits.
Arguments M : clear implicits.

Declare Scope js_scope.
Delimit Scope js_scope with js.
Notation "'let!' x ':=' c 'in' k" := (bind c (fun x => k))
  (at level 10, x name, c at level 100, k at level 200) : js_scope.
Notation "c ;; k" := (bind c (fun _ => k))
  (at level 100, k at level 200, right associativity) : js_scope.

Local Open Scope js_scope.

(** ** The methods of [PluginManager] *)

Section Methods.

Context {ext : Type}.
Variable host : Host ext.

Abbreviation M := (M ext).
Abbreviation world := (world ext).
Abbreviation PluginManager := (PluginManager ext).

(** *** Access to the world *)

Definition get_this : M PluginManager := fun w => (Normal (this w), w).

Definition set_this (s : PluginManager) : M unit :=
  fun w => (Normal tt, World s (console w) (history w) (outside w)).

Definition print (l : level) (text : string) (e : extra) : M unit :=
  fun w => (Normal tt,
            World (this w) (console w ++ [Console l text e]) (history w) (outside w)).

Definition console_log (text : string) : M unit := print LLog text NoExtra.
Definition console_warn (text : string) : M unit := print LWarn text NoExtra.
Definition console_error (text : string) (e : extra) : M unit := print LError text e.

Definition record (c : call) : M unit :=
  fun w => (Normal tt, World (this w) (console w) (history w ++ [c]) (outside w)).

(** [for (const x of xs) { body }] *)
Fixpoint for_of {A} (xs : list A) (body : A -> M unit) : M unit :=
  match xs with
  | [] => ret tt
  | x :: rest => body x ;; for_of rest body
  end.

(** *** The [Map] of plugins *)

(** [this.plugins.get(name)] *)
Fixpoint get (ps : list (string * pluginData ext)) (name : string) : option (pluginData ext) :=
  match ps with
  | [] => None
  | (k, d) :: rest => if String.eqb k name then Some d else get rest name
  end.

(** [this.plugins.has(name)] *)
Definition has (ps : list (string * pluginData ext)) (name : string) : bool :=
  match get ps name with
  | Some _ => true
  | None => false
  end.

(** [this.plugins.set(name, data)]: a present key keeps its place. *)
Fixpoint set (ps : list (string * pluginData ext)) (name : string) (data : pluginData ext)
  : list (string * pluginData ext) :=
  match ps with
  | [] => [(name, data)]
  | (k, d) :: rest =>
      if String.eqb k name then (k, data) :: rest else (k, d) :: set rest name data
  end.

(** [plugin.enabled = b] on the record stored under [name]. *)
Fixpoint set_enabled (ps : list (string * pluginData ext)) (name : string) (b : bool)
  : list (string * pluginData ext) :=
  match ps with
  | [] => []
  | (k, d) :: rest =>
      if String.eqb k name then (k, PluginData (instance d) b (metadata_of d)) :: rest
      else (k, d) :: set_enabled rest name b
  end.

(** *** register *)

(** [!plugin.init || typeof plugin.init !== 'function'] *)
Definition lacks_init (p : plugin ext) : bool :=
  match plugin_init p with
  | InitFunction _ => false
  | InitMissing | InitNotFunction _ => true
  end.

Definition register (name : string) (plugin : plugin ext) : M PluginManager :=
  let! s := get_this in
  if has (plugins s) name then
    throw (Error ("Plugin " ++ dq ++ name ++ dq ++ " is already registered"))
  else if lacks_init plugin then
    throw (Error ("Plugin " ++ dq ++ name ++ dq ++ " must have an init() method"))
  else
    set_this (Manager
                (set (plugins s) name
                     (PluginData plugin true
                                 (default no_metadata (plugin_metadata plugin))))
                (hooks s) (middleware s) (initialized s)) ;;
    console_log ("[PluginManager] Registered plugin: " ++ name) ;;
    get_this.

(** *** registerHook, runHook *)

Definition registerHook (hookName : string) (cb : callback ext) : M unit :=
  let! s := get_this in
  let s1 :=
    match hooks s !! hookName with
    | None => Manager (plugins s) (<[hookName := []]> (hooks s)) (middleware s) (initialized s)
    | Some _ => s
    end in
  set_this (Manager (plugins s1)
                    (<[hookName := default [] (hooks s1 !! hookName) ++ [cb]]> (hooks s1))
                    (middleware s1) (initialized s1)).

(** [await callback(result)] *)
Definition call_callback (hookName : string) (cb : callback ext) (input : value) : M value :=
  record (CallbackCalled hookName input) ;;
  fun w =>
    let '(out, o) := cb input (outside w) in
    (out, World (this w) (console w) (history w) o).

(** The loop of [runHook] over the callbacks that remain. *)
Fixpoint run_callbacks (hookName : string) (callbacks : list (callback ext)) (result : value)
  : M value :=
  match callbacks with
  | [] => ret result
  | cb :: rest =>
      let! result' :=
        try_catch
          (let! output := call_callback hookName cb result in
           if defined output then ret output else ret result)
          (fun error =>
             console_error ("[PluginManager] Error in hook " ++ dq ++ hookName ++ dq ++ ":")
                         (ErrorObject error) ;;
             ret result) in
      run_callbacks hookName rest result'
  end.

Definition runHook (hookName : string) (data : value) : M value :=
  let! s := get_this in
  let callbacks := default [] (hooks s !! hookName) in
  record (HookRun hookName data) ;;
  run_callbacks hookName callbacks data.

(** *** addMiddleware, getMiddleware *)

Definition addMiddleware (mw : middlewareFn) : M unit :=
  let! s := get_this in
  set_this (Manager (plugins s) (hooks s) (middleware s ++ [mw]) (initialized s)).

Definition getMiddleware : M (list middlewareFn) :=
  let! s := get_this in ret (middleware s).

(** *** init *)

Definition apply_effect (e : effect ext) : M unit :=
  match e with
  | AddMiddleware mw => addMiddleware mw
  | RegisterHook hookName cb => registerHook hookName cb
  end.

(** The body of a plugin's [init] runs against the world outside. *)
Definition enter_init (f : initFn ext) (app : value) : M (list (effect ext) * completion unit) :=
  fun w =>
    let '(r, o) := f app (outside w) in
    (Normal r, World (this w) (console w) (history w) o).

(** [await pluginData.instance.init(app, this)] *)
Definition call_init (name : string) (p : plugin ext) (app : value) : M unit :=
  match plugin_init p with
  | InitFunction f =>
      record (InitCalled name) ;;
      let! r := enter_init f app in
      for_of (fst r) apply_effect ;;
      match snd r with
      | Normal _ => ret tt
      | Throw e => throw e
      end
  | InitMissing | InitNotFunction _ =>
      throw (Error "pluginData.instance.init is not a function")
  end.

(** The body of the loop of [init] for one entry of [this.plugins]. *)
Definition init_one (app : value) (entry : string * pluginData ext) : M unit :=
  let '(name, pluginData) := entry in
  if negb (enabled pluginData) then
    console_log ("[PluginManager] Skipping disabled plugin: " ++ name)
  else
    try_catch
      (call_init name (instance pluginData) app ;;
       console_log ("[PluginManager] Initialized plugin: " ++ name))
      (fun error =>
         console_error ("[PluginManager] Failed to initialize plugin " ++ dq ++ name ++ dq ++ ":")
                       (ErrorObject error) ;;
         throw error).

(** [init] bodies do not add, remove or toggle plugins (see [effect]), so
    the loop over the live [Map] sees the entries there were on entry. *)
Definition init (app : value) : M unit :=
  let! s := get_this in
  if initialized s then
    console_warn "[PluginManager] Already initialized"
  else
    console_log ("[PluginManager] Initializing " ++ decimal (length (plugins s)) ++ " plugins...") ;;
    for_of (plugins s) (init_one app) ;;
    (let! s' := get_this in
     set_this (Manager (plugins s') (hooks s') (middleware s') true)) ;;
    let! _r := runHook "plugins:initialized" (VObj [("app", app)]) in
    ret tt.

(** *** enable, disable, getPlugin, list *)

Definition enable (name : string) : M unit :=
  let! s := get_this in
  match get (plugins s) name with
  | None => throw (Error ("Plugin " ++ dq ++ name ++ dq ++ " not found"))
  | Some _ =>
      set_this (Manager (set_enabled (plugins s) name true)
                        (hooks s) (middleware s) (initialized s))
  end.

Definition disable (name : string) : M unit :=
  let! s := get_this in
  match get (plugins s) name with
  | None => throw (Error ("Plugin " ++ dq ++ name ++ dq ++ " not found"))
  | Some _ =>
      set_this (Manager (set_enabled (plugins s) name false)
                        (hooks s) (middleware s) (initialized s))
  end.

Definition getPlugin (name : string) : M (option (pluginData ext)) :=
  let! s := get_this in ret (get (plugins s) name).

(** One element of the array [list()] returns. *)
Record listed : Type := Listed {
  l_name : string;
  l_enabled : bool;
  l_metadata : metadata
}.

Definition list_of (s : PluginManager) : list listed :=
  map (fun '(name, data) => Listed name (enabled data) (metadata_of data)) (plugins s).

(** [list()] *)
Definition list_ : M (list listed) :=
  let! s := get_this in ret (list_of s).

(** *** load, loadFromDirectory *)

(** A call into the host. *)
Definition lift {A} (c : completion A) : M A := fun w => (c, w).

(** [pluginPath.split('/').pop().replace('.js', '')] *)
Definition file_name (pluginPath : string) : string :=
  Js.replace ".js" EmptyString (Js.pop (Js.split (ascii_of_nat 47) pluginPath)).

(** [plugin.metadata?.name]; [None] stands for [undefined]. *)
Definition metadata_name (p : plugin ext) : option string :=
  match plugin_metadata p with
  | Some md => md_name md
  | None => None
  end.

(** [plugin.metadata?.name || pluginPath...]: the empty string is falsy. *)
Definition name_for (p : plugin ext) (pluginPath : string) : string :=
  match metadata_name p with
  | Some n => if String.eqb n EmptyString then file_name pluginPath else n
  | None => file_name pluginPath
  end.

Definition load (pluginPath : string) : M string :=
  try_catch
    (let! plugin := lift (require host pluginPath) in
     let name := name_for plugin pluginPath in
     register name plugin ;;
     ret name)
    (fun error =>
       console_error ("[PluginManager] Failed to load plugin from " ++ dq ++ pluginPath ++ dq ++ ":")
                     (ErrorObject error) ;;
       throw error).

(** The files [loadFromDirectory] goes through, in its order. *)
Definition files_of (pluginsDir : string) (listing : list string) : list string :=
  map (path_join host pluginsDir) (List.filter (Js.endsWith ".js") listing).

Definition loadFromDirectory (pluginsDir : string) : M unit :=
  if negb (existsSync host pluginsDir) then
    console_warn ("[PluginManager] Plugins directory not found: " ++ pluginsDir)
  else
    let! listing := lift (readdirSync host pluginsDir) in
    let files := files_of pluginsDir listing in
    console_log ("[PluginManager] Loading " ++ decimal (length files) ++ " plugins from " ++ pluginsDir) ;;
    for_of files (fun file =>
      try_catch
        (let! _name := load file in ret tt)
        (fun error =>
           let! text := lift (message error) in
           console_error ("[PluginManager] Failed to load " ++ file ++ ":")
                         (Printed text))).

End Methods.

(** ** What a run lets one observe *)

Section Observations.

Context {ext : Type}.
Variable host : Host ext.

(** The plugins whose [init] was entered, oldest call first. *)
Fixpoint init_calls (h : list call) : list string :=
  match h with
  | [] => []
  | InitCalled name :: rest => name :: init_calls rest
  | _ :: rest => init_calls rest
  end.

(** The hooks that were run, oldest first. *)
Fixpoint hook_runs (h : list call) : list string :=
  match h with
  | [] => []
  | HookRun hookName _ :: rest => hookName :: hook_runs rest
  | _ :: rest => hook_runs rest
  end.

(** The inputs the callbacks of hooks were called on, oldest first. *)
Fixpoint callback_inputs (h : list call) : list value :=
  match h with
  | [] => []
  | CallbackCalled _ input :: rest => input :: callback_inputs rest
  | _ :: rest => callback_inputs rest
  end.

(** The names of the enabled plugins, in registration order. *)
Fixpoint enabled_names (ps : list (string * pluginData ext)) : list string :=
  match ps with
  | [] => []
  | (name, d) :: rest =>
      if enabled d then name :: enabled_names rest else enabled_names rest
  end.

(** The names [init] adds to the history for one entry of the map. *)
Definition entered (entry : string * pluginData ext) : list string :=
  if enabled (snd entry) then
    match plugin_init (instance (snd entry)) with
    | InitFunction _ => [fst entry]
    | InitMissing | InitNotFunction _ => []
    end
  else [].

(** The world [init] works in once it has announced itself. *)
Definition announced (w : world ext) : world ext :=
  World (this w)
        (console w ++ [Console LLog ("[PluginManager] Initializing "
                                       ++ decimal (length (plugins (this w))) ++ " plugins...")
                               NoExtra])
        (history w) (outside w).

(** What the warning of a repeated [init] leaves behind. *)
Definition warned (w : world ext) : world ext :=
  World (this w)
        (console w ++ [Console LWarn "[PluginManager] Already initialized" NoExtra])
        (history w) (outside w).

(** The world once [init] has set [this.initialized]. *)
Definition marked (w : world ext) : world ext :=
  World (Manager (plugins (this w)) (hooks (this w)) (middleware (this w)) true)
        (console w) (history w) (outside w).

(** The entry [init] prints for a plugin whose [init] threw. *)
Definition init_failure (name : string) (e : JsError) : consoleEntry :=
  Console LError ("[PluginManager] Failed to initialize plugin " ++ dq ++ name ++ dq ++ ":")
          (ErrorObject e).

(** The world a successful [register] leaves. *)
Definition registered (name : string) (p : plugin ext) (w : world ext) : world ext :=
  World (Manager (set (plugins (this w)) name
                      (PluginData p true (default no_metadata (plugin_metadata p))))
                 (hooks (this w)) (middleware (this w)) (initialized (this w)))
        (console w ++ [Console LLog ("[PluginManager] Registered plugin: " ++ name) NoExtra])
        (history w) (outside w).

(** A method leaves an observation of the world as it was, however it
    ends. *)
Definition preserves {X A : Type} (obs : world ext -> X) (c : M ext A) : Prop :=
  forall w, obs (snd (c w)) = obs w.

(** What the loop of [init] leaves alone. *)
Definition beside_init (w : world ext)
  : bool * list (string * pluginData ext) * list string * list value :=
  (initialized (this w), plugins (this w), hook_runs (history w), callback_inputs (history w)).

(** What no method changes once [init] has succeeded. *)
Definition settled (w : world ext) : bool * list string :=
  (initialized (this w), init_calls (history w)).

(** *** Hook chains, as the specification words them *)

(** One step of the chain: the output of the callback is the next input,
    unless it is [undefined] (or the callback threw): then the previous
    value is kept. *)
Definition next_input (previous : value) (c : completion value) : value :=
  match c with
  | Normal output => if defined output then output else previous
  | Throw _ => previous
  end.

(** The value threaded through the callbacks in registration order, and
    the inputs they saw. *)
Fixpoint thread (callbacks : list (callback ext)) (data : value) (o : ext)
  : value * list value * ext :=
  match callbacks with
  | [] => (data, [], o)
  | cb :: rest =>
      let '(c, o') := cb data o in
      let '(v, inputs, o'') := thread rest (next_input data c) o' in
      (v, data :: inputs, o'')
  end.

(** The manager with other callbacks under one hook name. *)
Definition with_callbacks (w : world ext) (hookName : string) (cbs : list (callback ext))
  : world ext :=
  World (Manager (plugins (this w)) (<[hookName := cbs]> (hooks (this w)))
                 (middleware (this w)) (initialized (this w)))
        (console w) (history w) (outside w).

(** The errors the callbacks threw, in order. *)
Fixpoint thrown (callbacks : list (callback ext)) (data : value) (o : ext) : list JsError :=
  match callbacks with
  | [] => []
  | cb :: rest =>
      let '(c, o') := cb data o in
      match c with
      | Normal _ => thrown rest (next_input data c) o'
      | Throw e => e :: thrown rest (next_input data c) o'
      end
  end.

(** *** Sequences of calls *)

(** A call of a public method by the application. *)
Inductive op : Type :=
| OpRegister (name : string) (p : plugin ext)
| OpInit (app : value)
| OpRegisterHook (hookName : string) (cb : callback ext)
| OpRunHook (hookName : string) (data : value)
| OpAddMiddleware (mw : middlewareFn)
| OpGetMiddleware
| OpEnable (name : string)
| OpDisable (name : string)
| OpGetPlugin (name : string)
| OpList
| OpLoad (pluginPath : string)
| OpLoadFromDirectory (pluginsDir : string).

(** The world after the call, whether it returned or threw. *)
Definition exec (o : op) (w : world ext) : world ext :=
  match o with
  | OpRegister name p => snd (register name p w)
  | OpInit app => snd (init app w)
  | OpRegisterHook hookName cb => snd (registerHook hookName cb w)
  | OpRunHook hookName data => snd (runHook hookName data w)
  | OpAddMiddleware mw => snd (addMiddleware mw w)
  | OpGetMiddleware => snd (getMiddleware w)
  | OpEnable name => snd (enable name w)
  | OpDisable name => snd (disable name w)
  | OpGetPlugin name => snd (getPlugin name w)
  | OpList => snd (list_ w)
  | OpLoad pluginPath => snd (load host pluginPath w)
  | OpLoadFromDirectory pluginsDir => snd (loadFromDirectory host pluginsDir w)
  end.

Definition run_ops (ops : list op) (w : world ext) : world ext :=
  fold_left (fun w o => exec o w) ops w.

(** The entry [runHook] prints for a callback that threw. *)
Definition hook_failure (hookName : string) (e : JsError) : consoleEntry :=
  Console LError ("[PluginManager] Error in hook " ++ dq ++ hookName ++ dq ++ ":")
          (ErrorObject e).

(** The entry [loadFromDirectory] prints for a file it could not load. *)
Definition load_failure (file : string) (text : value) : consoleEntry :=
  Console LError ("[PluginManager] Failed to load " ++ file ++ ":") (Printed text).

(** The body of the loop of [loadFromDirectory] for one file: [load] it,
    and if that throws read the [message] of what was thrown and print it.
    The read itself throws on [null] and [undefined]. *)
Definition attempt (file : string) (w : world ext) : completion unit * world ext :=
  match load host file w with
  | (Normal _, w') => (Normal tt, w')
  | (Throw e, w') =>
      match message e with
      | Normal text =>
          (Normal tt,
           World (this w') (console w' ++ [load_failure file text]) (history w') (outside w'))
      | Throw te => (Throw te, w')
      end
  end.

(** The loop over the files: it ends with the first throw that leaves the
    body. *)
Fixpoint attempts (files : list string) (w : world ext) : completion unit * world ext :=
  match files with
  | [] => (Normal tt, w)
  | file :: rest =>
      match attempt file w with
      | (Normal _, w') => attempts rest w'
      | (Throw e, w') => (Throw e, w')
      end
  end.


(** A file whose module throws something that has a [message] to read,
    if it throws at all. *)
Definition readable (file : string) : Prop :=
  forall e, require host file = Throw e -> exists text, message e = Normal text.

(** The world after [loadFromDirectory] has announced its work. *)
Definition scanning (pluginsDir : string) (listing : list string) (w : world ext) : world ext :=
  World (this w)
        (console w ++ [Console LLog ("[PluginManager] Loading "
                                       ++ decimal (length (files_of host pluginsDir listing))
                                       ++ " plugins from " ++ pluginsDir)
                               NoExtra])
        (history w) (outside w).

(** The world after the warning about a missing directory. *)
Definition missing (pluginsDir : string) (w : world ext) : world ext :=
  World (this w)
        (console w ++ [Console LWarn ("[PluginManager] Plugins directory not found: "
                                        ++ pluginsDir) NoExtra])
        (history w) (outside w).

End Observations.

(** ** Concrete modules, hosts and worlds *)

Module Examples.

(** The world outside is the list of routes of the Express application. *)
Abbreviation routes := (list string).

Definition app : value := VObj [("name", VStr "express")].

Definition start : world routes := World constructor [] [] [].

(** An [init] that does nothing. *)
Definition quiet : initFn routes := fun _ rs => (([], Normal tt), rs).

(** A module without metadata. *)
Definition bare : plugin routes := Plugin None (InitFunction quiet).

(** A module that names itself. *)
Definition named (n : string) : plugin routes :=
  Plugin (Some (Metadata (Some n) (Some "1.0.0") None None)) (InitFunction quiet).

(** A module whose [init] is not there. *)
Definition hollow : plugin routes := Plugin None InitMissing.

(** *** Hook callbacks *)

Definition returns (x : value) : callback routes := fun _ rs => (Normal x, rs).

Definition throws (msg : string) : callback routes := fun _ rs => (Throw (Error msg), rs).

(** A manager with two callbacks under ["x"]. *)
Definition chained : world routes :=
  with_callbacks start "x" [returns VUndefined; returns (VStr "w")].

(** *** A disk *)

Fixpoint find {A} (k : string) (l : list (string * A)) : option A :=
  match l with
  | [] => None
  | (k', a) :: rest => if String.eqb k' k then Some a else find k rest
  end.

(** A host with the given directories and module files; paths are joined
    with a slash. *)
Definition disk (dirs : list (string * list string)) (files : list (string * plugin routes))
  : Host routes :=
  {| existsSync := fun p =>
       match find p dirs, find p files with
       | None, None => false
       | _, _ => true
       end;
     readdirSync := fun p =>
       match find p dirs with
       | Some names => Normal names
       | None => Throw (Error ("ENOTDIR: not a directory, scandir '" ++ p ++ "'"))
       end;
     path_join := fun d f => (d ++ "/" ++ f)%string;
     require := fun p =>
       match find p files with
       | Some m => Normal m
       | None => Throw (Error ("Cannot find module '" ++ p ++ "'"))
       end |}.

(** The plugins directory of an application, with two modules in it. *)
Definition pair : Host routes :=
  disk [("/srv/app/plugins", ["a.js"; "b.js"])]
       [("/srv/app/plugins/a.js", bare); ("/srv/app/plugins/b.js", bare)].

(** A plugin file with [.js] inside its name. *)
Definition dotted : Host routes :=
  disk [("plugins", ["chart.js-adapter.js"])]
       [("plugins/chart.js-adapter.js", bare)].

(** A module that names itself [cors] in a file of another name. *)
Definition labelled : Host routes :=
  disk [("plugins", ["x.js"])] [("plugins/x.js", named "cors")].

(** A directory with a module that cannot be loaded, a file that is no
    module, and a good module after them. *)
Definition mixed : Host routes :=
  disk [("/srv/app/plugins", ["broken.js"; "good.js"; "notes.txt"])]
       [("/srv/app/plugins/good.js", bare)].

(** The same directory when [broken.js] is a module that throws [null]
    while it is loaded. *)
Definition nulled : Host routes :=
  {| existsSync := existsSync mixed;
     readdirSync := readdirSync mixed;
     path_join := path_join mixed;
     require := fun p =>
       if String.eqb p "/srv/app/plugins/broken.js" then Throw (Thrown VNull)
       else require mixed p |}.

(** *** Plugins with a behaviour *)

(** An [init] that adds a route to the application and a middleware to
    the manager. *)
Definition adds (route : string) (mw : middlewareFn) : initFn routes :=
  fun _ rs => (([AddMiddleware mw], Normal tt), rs ++ [route]).

(** An [init] that throws. *)
Definition fails (msg : string) : initFn routes :=
  fun _ rs => (([], Throw (Error msg)), rs).

Definition first : plugin routes := Plugin None (InitFunction (adds "/first" 1)).
Definition off : plugin routes := Plugin None (InitFunction (adds "/off" 2)).
Definition broken : plugin routes := Plugin None (InitFunction (fails "boom")).
Definition last_one : plugin routes := Plugin None (InitFunction (adds "/last" 4)).

(** Four plugins, the second disabled, the third failing. *)
Definition staged : world routes :=
  run_ops pair
          [OpRegister "first" first; OpRegister "off" off; OpDisable "off";
           OpRegister "broken" broken; OpRegister "last" last_one]
          start.

Definition staged_before : list (string * pluginData routes) :=
  [("first", PluginData first true no_metadata); ("off", PluginData off false no_metadata)].

Definition staged_after : list (string * pluginData routes) :=
  [("last", PluginData last_one true no_metadata)].

(** Two plugins that initialize. *)
Definition ready : world routes :=
  run_ops pair [OpRegister "first" first; OpRegister "last" last_one] start.

End Examples.

(** ** How a manager changes *)

Section Transitions.

Context {ext : Type}.

(** The assignments the methods make to the fields of a manager:
    [this.plugins.set] in [register], [plugin.enabled = b] in [enable]
    and [disable], the two [push] calls, and [this.initialized = true]. *)
Inductive step : PluginManager ext -> PluginManager ext -> Prop :=
| step_register s name p :
    has (plugins s) name = false ->
    lacks_init p = false ->
    step s (Manager (plugins s
                       ++ [(name, PluginData p true (default no_metadata (plugin_metadata p)))])
                    (hooks s) (middleware s) (initialized s))
| step_toggle s name b d :
    get (plugins s) name = Some d ->
    step s (Manager (set_enabled (plugins s) name b) (hooks s) (middleware s) (initialized s))
| step_middleware s mw :
    step s (Manager (plugins s) (hooks s) (middleware s ++ [mw]) (initialized s))
| step_hook s hookName cb :
    step s (Manager (plugins s)
                    (<[hookName := default [] (hooks s !! hookName) ++ [cb]]> (hooks s))
                    (middleware s) (initialized s))
| step_initialized s :
    step s (Manager (plugins s) (hooks s) (middleware s) true).

(** A record without its [enabled] flag. *)
Definition identity_of (entry : string * pluginData ext) : string * plugin ext * metadata :=
  (fst entry, instance (snd entry), metadata_of (snd entry)).

(** The keys of the map are distinct and every record holds a module
    with a callable [init]. *)
Definition sound (s : PluginManager ext) : Prop :=
  NoDup (map fst (plugins s))
  /\ Forall (fun entry => lacks_init (instance (snd entry)) = false) (plugins s).

(** A manager [s'] has what [s] had, in the same order, and maybe more
    after it: plugins up to their flag, the callbacks of every hook, the
    middleware; and it is initialized if [s] was. *)
Definition extends (s s' : PluginManager ext) : Prop :=
  map identity_of (plugins s) `prefix_of` map identity_of (plugins s')
  /\ (forall hookName,
        default [] (hooks s !! hookName) `prefix_of` default [] (hooks s' !! hookName))
  /\ middleware s `prefix_of` middleware s'
  /\ (initialized s = true -> initialized s' = true).

(** [enable] when [b] is true, [disable] otherwise. *)
Definition toggle (b : bool) (name : string) : M ext unit :=
  if b then enable name else disable name.

(** Whatever the world, the manager after a method is related by [R] to
    the manager before it. *)
Definition moves_by {A} (R : PluginManager ext -> PluginManager ext -> Prop) (c : M ext A) : Prop :=
  forall w, R (this w) (this (snd (c w))).

(** The error of [enable] and [disable] for a name that is no key. *)
Definition not_found (name : string) : JsError :=
  Error ("Plugin " ++ dq ++ name ++ dq ++ " not found").

(** What a call of [enable] ([b] true) or [disable] ([b] false) comes to:
    it throws on a name that is no key and changes nothing; otherwise it
    sets the flag of that record and nothing else. *)
Definition flips (b : bool) (name : string) (w : world ext) (r : completion unit * world ext)
  : Prop :=
  match r with
  | (Throw e, w') =>
      get (plugins (this w)) name = None /\ e = not_found name /\ w' = w
  | (Normal _, w') =>
      (exists d, get (plugins (this w)) name = Some d
                 /\ get (plugins (this w')) name
                    = Some (PluginData (instance d) b (metadata_of d)))
      /\ (forall other, other <> name ->
            get (plugins (this w')) other = get (plugins (this w)) other)
      /\ map l_name (list_of (this w')) = map l_name (list_of (this w))
      /\ hooks (this w') = hooks (this w)
      /\ middleware (this w') = middleware (this w)
      /\ initialized (this w') = initialized (this w)
      /\ console w' = console w
      /\ history w' = history w
      /\ outside w' = outside w
  end.

(** The entry [load] prints before it throws again. *)
Definition load_error (pluginPath : string) (e : JsError) : consoleEntry :=
  Console LError ("[PluginManager] Failed to load plugin from " ++ dq ++ pluginPath ++ dq ++ ":")
          (ErrorObject e).

(** The error of [register] for a name that is a key. *)
Definition already_registered (name : string) : JsError :=
  Error ("Plugin " ++ dq ++ name ++ dq ++ " is already registered").

End Transitions.

Section Scans.

Context {ext : Type}.
Variable host : Host ext.

(** Loading the file again cannot change the manager [s]: the module
    cannot be imported, or has no callable [init], or its name is
    taken. *)
Definition spent (file : string) (s : PluginManager ext) : Prop :=
  match require host file with
  | Throw _ => True
  | Normal p => lacks_init p = true \/ has (plugins s) (name_for p file) = true
  end.

End Scans.


(** ** Substrings *)

Module Text.

(** [s.includes(p)] *)
Fixpoint includes (p s : string) : bool :=
  Js.startsWith p s
  || match s with
     | EmptyString => false
     | String _ s' => includes p s'
     end.

(** [s.includes(c)] for one character. *)
Fixpoint has_char (c : ascii) (s : string) : bool :=
  match s with
  | EmptyString => false
  | String a s' => Ascii.eqb a c || has_char c s'
  end.

End Text.

(** ** The rate limiter (plugins/rate-limiter.js) *)

Module RateLimiter.

Local Open Scope Z_scope.

(** [config]. Times are the integers [Date.now()] returns, counts are
    integers as well, so the arithmetic of the source is exact on them. *)
Record config : Type := Config {
  windowMs : Z;
  maxRequests : Z;
  message : string
}.

Definition the_config : config :=
  Config (60 * 1000) 100 "Too many requests, please try again later.".

(** A value of the [requestCounts] map. *)
Record requestData : Type := RequestData {
  count : Z;
  resetTime : Z
}.

(** What the middleware reads of a request; [None] is [undefined]. *)
Record request : Type := Request {
  path : string;
  ip : option string;
  remoteAddress : option string
}.

(** [req.ip || req.connection.remoteAddress]: the empty string is
    falsy. The result is the key of the map, [undefined] included. *)
Definition key_of (req : request) : option string :=
  match ip req with
  | Some a => if String.eqb a EmptyString then remoteAddress req else Some a
  | None => remoteAddress req
  end.

(** The three [X-RateLimit-*] headers; [reset] is the time handed to
    [new Date]. *)
Record headers : Type := Headers {
  limit : Z;
  remaining : Z;
  reset : Z
}.

(** How the middleware ends: it calls [next()], with the headers set
    unless the path was none of the API's, or it answers 429. *)
Inductive response : Type :=
| Next (h : option headers)
| TooMany (h : headers) (error : string) (retryAfter : Z).

(** [Math.ceil(a / b)] for a positive [b]. *)
Definition ceil_div (a b : Z) : Z := - ((- a) / b).

(** The record of the request at hand: a new window, or one more in the
    running one. *)
Definition counted (cfg : config) (now : Z) (old : option requestData) : requestData :=
  match old with
  | None => RequestData 1 now
  | Some d =>
      if now - resetTime d >? windowMs cfg then RequestData 1 now
      else RequestData (count d + 1) (resetTime d)
  end.

Definition rateLimitMiddleware (cfg : config) (now : Z) (req : request)
           (requestCounts : gmap (option string) requestData)
  : response * gmap (option string) requestData :=
  if negb (Js.startsWith "/api/" (path req)) then (Next None, requestCounts)
  else
    let key := key_of req in
    let requestData := counted cfg now (requestCounts !! key) in
    let requestCounts' := <[key := requestData]> requestCounts in
    let h := Headers (maxRequests cfg)
                     (Z.max 0 (maxRequests cfg - count requestData))
                     (resetTime requestData + windowMs cfg) in
    if count requestData >? maxRequests cfg then
      (TooMany h (message cfg) (ceil_div (resetTime requestData + windowMs cfg - now) 1000),
       requestCounts')
    else (Next (Some h), requestCounts').

(** The callback of [setInterval]: entries older than a window go. *)
Definition cleanup (cfg : config) (now : Z) (requestCounts : gmap (option string) requestData)
  : gmap (option string) requestData :=
  filter (fun entry => ~ (now - resetTime (snd entry) > windowMs cfg)) requestCounts.

(** The body of the answer of [GET /api/rate-limit/status]. *)
Record status : Type := Status {
  st_requests : Z;
  st_limit : Z;
  st_remaining : Z;
  st_resetTime : option Z
}.

Definition rate_limit_status (cfg : config) (req : request)
           (requestCounts : gmap (option string) requestData) : status :=
  match requestCounts !! key_of req with
  | None => Status 0 (maxRequests cfg) (maxRequests cfg) None
  | Some d =>
      Status (count d) (maxRequests cfg) (Z.max 0 (maxRequests cfg - count d))
             (Some (resetTime d + windowMs cfg))
  end.

(** [next()] was called. *)
Definition passed (r : response) : bool :=
  match r with
  | Next _ => true
  | TooMany _ _ _ => false
  end.

(** The headers of a response to an API request. *)
Definition headers_of (r : response) : option headers :=
  match r with
  | Next h => h
  | TooMany h _ _ => Some h
  end.

(** The same client asking at each of the given times, in turn. *)
Fixpoint serve (cfg : config) (req : request) (times : list Z)
         (requestCounts : gmap (option string) requestData)
  : list response * gmap (option string) requestData :=
  match times with
  | [] => ([], requestCounts)
  | now :: later =>
      let '(r, requestCounts') := rateLimitMiddleware cfg now req requestCounts in
      let '(rs, requestCounts'') := serve cfg req later requestCounts' in
      (r :: rs, requestCounts'')
  end.

(** No window is running for the key at [now]. *)
Definition fresh (cfg : config) (now : Z) (old : option requestData) : Prop :=
  match old with
  | None => True
  | Some d => now - resetTime d > windowMs cfg
  end.

End RateLimiter.

(** ** The request statistics (plugins/analytics.js) *)

Module Analytics.

(** [stats.routes[route]]: the counter of a route and those of its
    methods. *)
Record routeStats : Type := RouteStats {
  count : nat;
  methods : gmap string nat
}.

(** [stats], without the start time. The keys of [routes] are request
    paths, which begin with a slash, and those of [methods] are HTTP
    methods in capitals: none is a property an object inherits. *)
Record stats : Type := Stats {
  requests : nat;
  routes : gmap string routeStats
}.

(** [stats] when the module is loaded. *)
Definition initial : stats := Stats 0 ∅.

Record request : Type := Request {
  path : string;
  method : string
}.

(** What the middleware does to [stats] before it calls [next()]. *)
Definition analyticsMiddleware (req : request) (st : stats) : stats :=
  let route := path req in
  let entry :=
    match routes st !! route with
    | Some r => r
    | None => RouteStats 0 ∅
    end in
  let seen :=
    match methods entry !! method req with
    | Some n => n
    | None => 0
    end in
  Stats (requests st + 1)
        (<[route := RouteStats (count entry + 1) (<[method req := seen + 1]> (methods entry))]>
           (routes st)).

(** The statistics after the requests, oldest first. *)
Definition after (reqs : list request) (st : stats) : stats :=
  fold_left (fun st req => analyticsMiddleware req st) reqs st.

(** [stats.routes[route].count], 0 for a route without an entry. *)
Definition route_count (st : stats) (route : string) : nat :=
  match routes st !! route with
  | Some r => count r
  | None => 0
  end.

(** [stats.routes[route].methods[m]], 0 where there is none. *)
Definition method_count (st : stats) (route m : string) : nat :=
  match routes st !! route with
  | Some r => default 0 (methods r !! m)
  | None => 0
  end.

(** The requests for a route, and those of them with a method. *)
Definition to_route (route : string) (reqs : list request) : list request :=
  filter (fun req => path req = route) reqs.

Definition with_method (m : string) (reqs : list request) : list request :=
  filter (fun req => method req = m) reqs.

End Analytics.

(** ** The entry point (index.js) *)

Module Startup.

(** What sits on the stack of the Express application, in the order in
    which requests go through it. *)
Inductive layer : Type :=
| Use (mw : middlewareFn)
| Route (path : string)
| ErrorHandler.

(** The Express application and the port it is to listen on. Plugins
    reach it as [app] in their [init]. *)
Record express : Type := Express {
  stack : list layer;
  port_free : bool;
  listening : bool
}.

(** How [bootstrap] ends: the server is up, the process has exited, or
    the port was taken and the server emitted an error. *)
Inductive ending : Type :=
| Serving
| Exited (code : Z)
| PortTaken.

(** A call on the application. *)
Definition on_app (f : express -> express) : M express unit :=
  fun w => (Normal tt, World (this w) (console w) (history w) (f (outside w))).

Definition app_use (mw : middlewareFn) : M express unit :=
  on_app (fun a => Express (stack a ++ [Use mw]) (port_free a) (listening a)).

Definition app_get (path : string) : M express unit :=
  on_app (fun a => Express (stack a ++ [Route path]) (port_free a) (listening a)).

Definition app_use_error_handler : M express unit :=
  on_app (fun a => Express (stack a ++ [ErrorHandler]) (port_free a) (listening a)).

(** A line feed. *)
Definition lf : string := String (ascii_of_nat 10) EmptyString.

Section Bootstrap.

Variable host : Host express.

(** [path.join(__dirname, 'plugins')], the application handle, the port
    as a value and as the template literals print it, and the server
    handle. *)
Variable pluginsDir : string.
Variable app : value.
Variable port : value.
Variable port_text : string.
Variable server : value.

(** The callback of [app.listen]. *)
Definition started : M express unit :=
  console_log (lf ++ "🚀 Server started on port " ++ port_text) ;;
  (let! plugins := list_ in
   console_log ("📦 Loaded " ++ decimal (length plugins) ++ " plugins")) ;;
  console_log (lf ++ "Available endpoints:") ;;
  console_log ("  - http://localhost:" ++ port_text ++ "/") ;;
  console_log ("  - http://localhost:" ++ port_text ++ "/api/haikus") ;;
  console_log ("  - http://localhost:" ++ port_text ++ "/api/plugins") ;;
  console_log ("  - http://localhost:" ++ port_text ++ "/api/analytics") ;;
  console_log ("  - http://localhost:" ++ port_text ++ "/api/health" ++ lf) ;;
  let! _r := runHook "app:start" (VObj [("port", port); ("server", server)]) in
  ret tt.

(** [app.listen(port, callback)]: on a free port the server listens and
    the callback runs. *)
Definition app_listen : M express ending :=
  fun w =>
    if port_free (outside w) then
      bind (on_app (fun a => Express (stack a) (port_free a) true) ;; started)
           (fun _ => ret Serving) w
    else (Normal PortTaken, w).

Definition bootstrap : M express ending :=
  try_catch
    (loadFromDirectory host pluginsDir ;;
     init app ;;
     let! middleware := getMiddleware in
     for_of middleware app_use ;;
     app_get "/" ;;
     app_get "/api/plugins" ;;
     app_use_error_handler ;;
     app_listen)
    (fun error =>
       console_error "Failed to start application:" (ErrorObject error) ;;
       ret (Exited 1)).

(** The entry [bootstrap] prints before the process exits. *)
Definition startup_failure (e : JsError) : consoleEntry :=
  Console LError "Failed to start application:" (ErrorObject e).

(** The two calls on the manager that can make [bootstrap] fail. *)
Definition load_and_init : M express unit :=
  loadFromDirectory host pluginsDir ;; init app.

(** The world in which the process exits. *)
Definition failed (e : JsError) (w : world express) : world express :=
  World (this w) (console w ++ [startup_failure e]) (history w) (outside w).

(** The world in which [app.listen] is called: the middleware of the
    manager, the two routes of the application and its error handler
    have been put on the stack. *)
Definition installed (w : world express) : world express :=
  World (this w) (console w) (history w)
        (Express (stack (outside w)
                    ++ map Use (middleware (this w))
                    ++ [Route "/"; Route "/api/plugins"; ErrorHandler])
                 (port_free (outside w)) (listening (outside w))).

End Bootstrap.

End Startup.

(** ** More concrete cases *)

Module Cases.

Import Startup.

(** A plugin whose [init] puts a route on the application and hands a
    middleware to the manager. *)
Definition with_route : plugin express :=
  Plugin None
         (InitFunction (fun _ a =>
            (([AddMiddleware 7], Normal tt),
             Express (stack a ++ [Route "/api/haikus"]) (port_free a) (listening a)))).

(** A host with one plugin file, [plugins/api-routes.js]. *)
Definition site (p : plugin express) : Host express :=
  {| existsSync := fun d => String.eqb d "plugins";
     readdirSync := fun d =>
       if String.eqb d "plugins" then Normal ["api-routes.js"]
       else Throw (Error "ENOENT: no such file or directory");
     path_join := fun d f => (d ++ "/" ++ f)%string;
     require := fun f =>
       if String.eqb f "plugins/api-routes.js" then Normal p
       else Throw (Error "Cannot find module") |}.

(** A new manager and an application with the two layers index.js puts
    on it before [bootstrap], on a free port. *)
Definition cold : world express :=
  World constructor [] [] (Express [Use 0; Use 1] true false).

Definition port : value := VNum 3000.

Definition server : value := VObj [].

(** A request to the API from one address, and one from another. *)
Definition from_a : RateLimiter.request :=
  RateLimiter.Request "/api/haikus" (Some "10.0.0.1") None.

Definition from_b : RateLimiter.request :=
  RateLimiter.Request "/api/haikus" None (Some "10.0.0.2").

(** The map of counts when the module is loaded. *)
Definition nobody : gmap (option string) RateLimiter.requestData := ∅.

(** A limiter that lets nothing through. *)
Definition closed : RateLimiter.config :=
  RateLimiter.Config 60000 0 "Too many requests, please try again later.".

End Cases.

(** ** Hook callbacks that reach the manager *)

(** The functions plugins register on a hook are closures of their
    [init], which was handed the manager: while [runHook] awaits one of
    them it may call [registerHook], on the hook that is running as well,
    and the promise it returns may never settle. [runHook] iterates the
    array stored under the name itself, the one [registerHook] pushes on.
    Here callbacks are known by their identity, so that one can register
    itself, the arrays of [this.hooks] hold identities, and a method may
    not return. [runHook] reads nothing else of the manager. *)
Module Live.

Section Types.

Context {ext : Type}.

(** A function registered on a hook. *)
Definition handle : Type := nat.

(** What [await callback(result)] comes to: the calls of [registerHook]
    the callback makes, in their order, and how the promise it returned is
    settled, if it ever is. *)
Record outcome : Type := Outcome {
  registrations : list (string * handle);
  settlement : option (completion value)
}.

(** The code of the callbacks. *)
Definition program : Type := handle -> value -> ext -> outcome * ext.

Record world : Type := World {
  hooks : gmap string (list handle);
  console : list consoleEntry;
  history : list call;
  outside : ext
}.

(** Methods are state transformers that may throw and may not return. *)
Definition M (A : Type) : Type := world -> option (completion A * world).

Definition ret {A} (a : A) : M A := fun w => Some (Normal a, w).

Definition bind {A B} (c : M A) (k : A -> M B) : M B :=
  fun w =>
    match c w with
    | Some (Normal a, w') => k a w'
    | Some (Throw e, w') => Some (Throw e, w')
    | None => None
    end.

(** [try { c } catch (error) { handler }] *)
Definition try_catch {A} (c : M A) (handler : JsError -> M A) : M A :=
  fun w =>
    match c w with
    | Some (Normal a, w') => Some (Normal a, w')
    | Some (Throw e, w') => handler e w'
    | None => None
    end.

End Types.

Arguments program : clear implicits.
Arguments world : clear implicits.
Arguments M : clear implicits.

Declare Scope live_scope.
Delimit Scope live_scope with live.
Notation "'let!' x ':=' c 'in' k" := (bind c (fun x => k))
  (at level 10, x name, c at level 100, k at level 200) : live_scope.
Notation "c ;; k" := (bind c (fun _ => k))
  (at level 100, k at level 200, right associativity) : live_scope.

Local Open Scope live_scope.

Section Methods.

Context {ext : Type}.
Variable code : program ext.

Definition console_error (text : string) (e : extra) : M ext unit :=
  fun w => Some (Normal tt,
                 World (hooks w) (console w ++ [Console LError text e]) (history w) (outside w)).

Definition record (c : call) : M ext unit :=
  fun w => Some (Normal tt, World (hooks w) (console w) (history w ++ [c]) (outside w)).

(** [this.hooks.get(hookName) || []], as the array is now. *)
Definition get_callbacks (hookName : string) : M ext (list handle) :=
  fun w => Some (Normal (default [] (hooks w !! hookName)), w).

(** What [registerHook] makes of [this.hooks]. *)
Definition pushed (hookName : string) (callback : handle) (hs : gmap string (list handle))
  : gmap string (list handle) :=
  let hs1 :=
    match hs !! hookName with
    | None => <[hookName := []]> hs
    | Some _ => hs
    end in
  <[hookName := default [] (hs1 !! hookName) ++ [callback]]> hs1.

Definition registerHook (hookName : string) (callback : handle) : M ext unit :=
  fun w => Some (Normal tt,
                 World (pushed hookName callback (hooks w)) (console w) (history w) (outside w)).

(** [await callback(result)] *)
Definition call_callback (hookName : string) (callback : handle) (input : value) : M ext value :=
  record (CallbackCalled hookName input) ;;
  fun w =>
    let '(out, o) := code callback input (outside w) in
    let w' :=
      World (fold_left (fun hs '(name, cb) => pushed name cb hs) (registrations out) (hooks w))
            (console w) (history w) o in
    match settlement out with
    | Some c => Some (c, w')
    | None => None
    end.

(** The loop of [runHook], from the element at [index] on. The iterator
    of an array looks at the array as it is when the next element is asked
    for; an array stored in [this.hooks] is never replaced by another. *)
Fixpoint run_callbacks (fuel : nat) (hookName : string) (index : nat) (result : value)
  : M ext value :=
  match fuel with
  | O => fun _ => None
  | S fuel =>
      let! callbacks := get_callbacks hookName in
      match callbacks !! index with
      | None => ret result
      | Some callback =>
          let! result' :=
            try_catch
              (let! output := call_callback hookName callback result in
               if defined output then ret output else ret result)
              (fun error =>
                 console_error ("[PluginManager] Error in hook " ++ dq ++ hookName ++ dq ++ ":")
                               (ErrorObject error) ;;
                 ret result) in
          run_callbacks fuel hookName (S index) result'
      end
  end.

Definition runHook (fuel : nat) (hookName : string) (data : value) : M ext value :=
  record (HookRun hookName data) ;;
  run_callbacks fuel hookName 0 data.

(** *** What a run lets one observe *)

(** A callback whose promise is settled whatever it is called on. *)
Definition settles (callback : handle) : Prop :=
  forall input o, settlement (fst (code callback input o)) <> None.

(** A callback that registers nothing on the hook [hookName]. *)
Definition keeps_off (hookName : string) (callback : handle) : Prop :=
  forall input o name cb,
    In (name, cb) (registrations (fst (code callback input o))) -> name <> hookName.

(** The value threaded through the callbacks, the inputs they saw, what
    they threw, and the world outside after them. *)
Fixpoint thread (callbacks : list handle) (data : value) (o : ext)
  : value * list value * list JsError * ext :=
  match callbacks with
  | [] => (data, [], [], o)
  | callback :: rest =>
      let '(out, o') := code callback data o in
      let c := default (Normal VUndefined) (settlement out) in
      let '(v, inputs, errors, o'') := thread rest (next_input data c) o' in
      (v, data :: inputs,
       match c with
       | Throw e => e :: errors
       | Normal _ => errors
       end,
       o'')
  end.

End Methods.

(** The code in which a callback returns [undefined] where it throws in
    [code]. *)
Definition absorbing {ext} (code : program ext) : program ext :=
  fun callback input o =>
    let '(out, o') := code callback input o in
    (Outcome (registrations out)
             (match settlement out with
              | Some (Throw _) => Some (Normal VUndefined)
              | other => other
              end),
     o').

(** The code of callbacks that leave the manager alone and always settle:
    the functions of [callbacks], known by their place in the list. *)
Definition plain {ext} (callbacks : list (callback ext)) : program ext :=
  fun place input o =>
    match callbacks !! place with
    | Some cb => let '(c, o') := cb input o in (Outcome [] (Some c), o')
    | None => (Outcome [] (Some (Normal VUndefined)), o)
    end.

(** *** Callbacks *)

(** A manager with the given callbacks under ["x"]. *)
Definition hooked (callbacks : list handle) : world Examples.routes :=
  World (<["x" := callbacks]> ∅) [] [] [].

(** A callback that registers itself again on the hook it runs for. *)
Definition again : program Examples.routes :=
  fun callback _ rs => (Outcome [("x", callback)] (Some (Normal VUndefined)), rs).

(** A callback whose promise is never settled. *)
Definition never : program Examples.routes :=
  fun _ _ rs => (Outcome [] None, rs).

(** Callback 0 returns [2], callback 1 registers callback 0 on another
    hook and throws, every other callback returns [undefined]. *)
Definition trio : program Examples.routes :=
  fun callback _ rs =>
    match callback with
    | 0 => (Outcome [] (Some (Normal (VNum 2))), rs)
    | 1 => (Outcome [("y", 0)] (Some (Throw (Error "bad"))), rs)
    | _ => (Outcome [] (Some (Normal VUndefined)), rs)
    end.

End Live.

(** * Properties *)

Section Basics.

Context {ext : Type}.

(** ** The [Map] of plugins *)

Lemma set_fresh (ps : list (string * pluginData ext)) name d :
  has ps name = false -> set ps name d = ps ++ [(name, d)].
Proof.
  unfold has. induction ps as [|[k x] ps IH]; simpl; intros H; [reflexivity|].
  destruct (String.eqb k name); [discriminate|]. now rewrite IH.
Qed.

Lemma get_app_fresh (ps : list (string * pluginData ext)) name d :
  has ps name = false -> get (ps ++ [(name, d)]) name = Some d.
Proof.
  unfold has. induction ps as [|[k x] ps IH]; simpl; intros H.
  - now rewrite String.eqb_refl.
  - destruct (String.eqb k name); [discriminate|]. now apply IH.
Qed.

End Basics.

(** ** register *)

Section Register.

Context {ext : Type}.

Lemma register_unfold (name : string) (p : plugin ext) (w : world ext) :
  register name p w
  = if has (plugins (this w)) name then
      (Throw (Error ("Plugin " ++ dq ++ name ++ dq ++ " is already registered")), w)
    else if lacks_init p then
      (Throw (Error ("Plugin " ++ dq ++ name ++ dq ++ " must have an init() method")), w)
    else (Normal (this (registered name p w)), registered name p w).
Proof.
  unfold register, bind, get_this, set_this, console_log, print, throw. cbn [this].
  destruct (has (plugins (this w)) name); [reflexivity|].
  destruct (lacks_init p); reflexivity.
Qed.

(** C4. [register] throws exactly when the name is already a key of the
    map or the module has no callable [init]. When it throws, the world --
    hence the record stored under the name -- is what it was. When it
    returns, it returns the manager itself, in which the new record, with
    [enabled] set, has been added after the others. *)
Theorem register_outcome (name : string) (p : plugin ext) (w : world ext) :
  ((exists e, fst (register name p w) = Throw e)
   <-> (has (plugins (this w)) name = true \/ lacks_init p = true))
  /\ match register name p w with
     | (Throw e, w') =>
         w' = w
         /\ get (plugins (this w')) name = get (plugins (this w)) name
         /\ (has (plugins (this w)) name = true ->
             e = Error ("Plugin " ++ dq ++ name ++ dq ++ " is already registered"))
     | (Normal s, w') =>
         s = this w'
         /\ plugins s
            = plugins (this w)
                ++ [(name, PluginData p true (default no_metadata (plugin_metadata p)))]
         /\ get (plugins s) name
            = Some (PluginData p true (default no_metadata (plugin_metadata p)))
         /\ hooks s = hooks (this w)
         /\ middleware s = middleware (this w)
         /\ initialized s = initialized (this w)
     end.
Proof.
  rewrite register_unfold.
  destruct (has (plugins (this w)) name) eqn:Hhas; cbn [fst].
  - split; [split; eauto|]. repeat split; auto.
  - destruct (lacks_init p) eqn:Hinit; cbn [fst].
    + split; [split; eauto|]. repeat split; auto. discriminate.
    + split.
      * split; [intros [e He]; discriminate | intros [H|H]; discriminate].
      * unfold registered. cbn [this plugins hooks middleware initialized].
        rewrite set_fresh by assumption.
        repeat split; auto. now apply get_app_fresh.
Qed.

End Register.

(** ** Hook chains *)

Section Hooks.

Context {ext : Type}.


(** The loop of [runHook] computes [thread], calls every callback and
    prints one entry per callback that threw. *)
Lemma run_callbacks_thread hookName (cbs : list (callback ext)) data (w : world ext) :
  run_callbacks hookName cbs data w
  = (Normal (fst (fst (thread cbs data (outside w)))),
     World (this w)
           (console w ++ map (hook_failure hookName) (thrown cbs data (outside w)))
           (history w ++ map (CallbackCalled hookName) (snd (fst (thread cbs data (outside w)))))
           (snd (thread cbs data (outside w)))).
Proof.
  revert data w. induction cbs as [|cb cbs IH]; intros data w.
  - simpl. unfold ret. rewrite !app_nil_r. now destruct w.
  - cbn [run_callbacks thread thrown].
    unfold try_catch, call_callback, console_error, print, record, ret, bind.
    cbn [outside this console history].
    destruct (cb data (outside w)) as [[output|e] o'] eqn:Hcb; cbn [next_input].
    + destruct (defined output); rewrite IH; cbn [outside this console history];
        destruct (thread cbs _ o') as [[v inputs] o'']; cbn [fst snd map];
        now rewrite <- app_assoc.
    + rewrite IH. cbn [outside this console history].
      destruct (thread cbs data o') as [[v inputs] o'']. cbn [fst snd map].
      now rewrite <- !app_assoc.
Qed.

Lemma runHook_thread hookName data (w : world ext) :
  runHook hookName data w
  = let cbs := default [] (hooks (this w) !! hookName) in
    (Normal (fst (fst (thread cbs data (outside w)))),
     World (this w)
           (console w ++ map (hook_failure hookName) (thrown cbs data (outside w)))
           (history w ++ HookRun hookName data
                    :: map (CallbackCalled hookName) (snd (fst (thread cbs data (outside w)))))
           (snd (thread cbs data (outside w)))).
Proof.
  unfold runHook, bind at 1, get_this. unfold bind, record.
  rewrite run_callbacks_thread. cbn [outside this console history].
  now rewrite <- app_assoc.
Qed.

(** C2. [registerHook] puts a callback after those already under the
    name, and [runHook] returns the value threaded through the callbacks
    under the name in that order: each callback is called on the output of
    the one before it, or on the value before that when the output was
    [undefined]. With no callback under the name the input comes back
    unchanged; with callbacks [f1; f2] where [f1] returns [undefined] and
    [f2] returns a value [x], the result is [x]. *)
Theorem runHook_threads_data hookName data (w : world ext) :
  (forall cb,
     default [] (hooks (this (snd (registerHook hookName cb w))) !! hookName)
     = default [] (hooks (this w) !! hookName) ++ [cb])
  /\ (forall cbs, default [] (hooks (this w) !! hookName) = cbs ->
     exists w',
       runHook hookName data w = (Normal (fst (fst (thread cbs data (outside w)))), w')
       /\ history w'
          = history w ++ HookRun hookName data
                    :: map (CallbackCalled hookName) (snd (fst (thread cbs data (outside w)))))
  /\ (default [] (hooks (this w) !! hookName) = [] ->
      fst (runHook hookName data w) = Normal data)
  /\ (forall (f1 f2 : callback ext) x o1 o2,
        hooks (this w) !! hookName = Some [f1; f2] ->
        f1 data (outside w) = (Normal VUndefined, o1) ->
        f2 data o1 = (Normal x, o2) ->
        defined x = true ->
        fst (runHook hookName data w) = Normal x).
Proof.
  rewrite runHook_thread. cbv zeta. split; [|split; [|split]].
  - intros cb. unfold registerHook, bind, get_this, set_this. cbn [this snd].
    destruct (hooks (this w) !! hookName) as [cbs|] eqn:Hl; cbn [hooks];
      rewrite ?lookup_insert_eq; cbn [default]; [now rewrite Hl|reflexivity].
  - intros cbs <-. eexists. split; reflexivity.
  - intros ->. reflexivity.
  - intros f1 f2 x o1 o2 -> H1 H2 Hx. simpl.
    rewrite H1. simpl. rewrite H2. simpl. now rewrite Hx.
Qed.

End Hooks.

(** ** Hooks whose callbacks reach the manager *)

Section LiveHooks.

Context {ext : Type}.

Implicit Types (code : Live.program ext) (w : Live.world ext).

(** One turn of the loop of [runHook]. *)
Lemma run_callbacks_turn code fuel hookName index result w :
  Live.run_callbacks code (S fuel) hookName index result w
  = match default [] (Live.hooks w !! hookName) !! index with
    | None => Some (Normal result, w)
    | Some callback =>
        let out := fst (code callback result (Live.outside w)) in
        let w1 :=
          Live.World (fold_left (fun hs '(name, cb) => Live.pushed name cb hs)
                                (Live.registrations out) (Live.hooks w))
                     (Live.console w)
                     (Live.history w ++ [CallbackCalled hookName result])
                     (snd (code callback result (Live.outside w))) in
        match Live.settlement out with
        | None => None
        | Some (Normal output) =>
            Live.run_callbacks code fuel hookName (S index)
                               (if defined output then output else result) w1
        | Some (Throw error) =>
            Live.run_callbacks code fuel hookName (S index) result
              (Live.World (Live.hooks w1)
                          (Live.console w1 ++ [hook_failure hookName error])
                          (Live.history w1) (Live.outside w1))
        end
    end.
Proof.
  cbn [Live.run_callbacks]. unfold Live.bind at 1, Live.get_callbacks.
  destruct (default [] (Live.hooks w !! hookName) !! index) as [callback|]; [|reflexivity].
  unfold Live.bind at 1, Live.try_catch, Live.bind at 1, Live.call_callback, Live.bind at 1,
    Live.record.
  cbn [Live.outside Live.hooks Live.console Live.history].
  destruct (code callback result (Live.outside w)) as [out o]. cbn [fst snd]. cbv zeta.
  destruct (Live.settlement out) as [[output|error]|]; [| |reflexivity].
  - destruct (defined output); reflexivity.
  - reflexivity.
Qed.

(** Whatever the callbacks do, nothing is thrown out of the loop. *)
Lemma run_callbacks_never_throws code hookName fuel :
  forall index result w c w',
    Live.run_callbacks code fuel hookName index result w = Some (c, w') ->
    exists v, c = Normal v.
Proof.
  induction fuel as [|fuel IH]; intros index result w c w'; [discriminate|].
  rewrite run_callbacks_turn. cbv zeta.
  destruct (default [] (Live.hooks w !! hookName) !! index) as [callback|].
  - destruct (Live.settlement _) as [[output|error]|]; [apply IH|apply IH|discriminate].
  - intros [= <- <-]. now exists result.
Qed.

Lemma pushed_other name cb (hs : gmap string (list Live.handle)) hookName :
  name <> hookName -> Live.pushed name cb hs !! hookName = hs !! hookName.
Proof.
  intros Hn. unfold Live.pushed. cbv zeta.
  destruct (hs !! name); rewrite ?lookup_insert_ne by assumption; reflexivity.
Qed.

Lemma pushed_same name cb (hs : gmap string (list Live.handle)) :
  default [] (Live.pushed name cb hs !! name) = default [] (hs !! name) ++ [cb].
Proof.
  unfold Live.pushed. cbv zeta.
  destruct (hs !! name) as [l|] eqn:Hl; rewrite !lookup_insert_eq; cbn; [|reflexivity].
  now rewrite Hl.
Qed.

Lemma registrations_elsewhere (regs : list (string * Live.handle)) hookName :
  (forall name cb, In (name, cb) regs -> name <> hookName) ->
  forall hs : gmap string (list Live.handle),
    fold_left (fun hs '(name, cb) => Live.pushed name cb hs) regs hs !! hookName
    = hs !! hookName.
Proof.
  induction regs as [|[name cb] regs IH]; intros Hoff hs; cbn [fold_left]; [reflexivity|].
  rewrite IH by (intros n c Hin; apply (Hoff n c); now right).
  apply pushed_other, (Hoff name cb). now left.
Qed.

(** Over callbacks that settle and leave the running hook alone, the loop
    is the fold [Live.thread] over the callbacks that were there. *)
Lemma run_callbacks_thread_live code hookName rest :
  forall before result w v inputs errors o,
    default [] (Live.hooks w !! hookName) = before ++ rest ->
    (forall callback, In callback rest ->
                      Live.settles code callback /\ Live.keeps_off code hookName callback) ->
    Live.thread code rest result (Live.outside w) = (v, inputs, errors, o) ->
    exists w',
      (forall fuel, length rest < fuel ->
                    Live.run_callbacks code fuel hookName (length before) result w
                    = Some (Normal v, w'))
      /\ Live.history w' = Live.history w ++ map (CallbackCalled hookName) inputs
      /\ Live.console w' = Live.console w ++ map (hook_failure hookName) errors
      /\ Live.outside w' = o
      /\ length inputs = length rest.
Proof.
  induction rest as [|callback rest IH]; intros before result w v inputs errors o Hl Hq Ht.
  - cbn in Ht. injection Ht as <- <- <- <-. exists w. split; [|now rewrite !app_nil_r].
    intros [|fuel] Hf; [inversion Hf|]. rewrite run_callbacks_turn, Hl, app_nil_r.
    now rewrite lookup_ge_None_2.
  - cbn [Live.thread] in Ht.
    destruct (Hq callback (or_introl eq_refl)) as [Hsettles Hoff].
    specialize (Hsettles result (Live.outside w)).
    pose proof (Hoff result (Live.outside w)) as Hregs.
    destruct (code callback result (Live.outside w)) as [out o1] eqn:Hcode.
    cbn [fst] in Hsettles, Hregs.
    destruct (Live.settlement out) as [c|] eqn:Hc; [clear Hsettles|contradiction].
    cbn [default from_option id] in Ht.
    destruct (Live.thread code rest (next_input result c) o1) as [[[v1 inputs1] errors1] o2]
      eqn:Hrest.
    injection Ht as <- <- <- <-.
    set (hs1 := fold_left (fun hs '(name, cb) => Live.pushed name cb hs)
                          (Live.registrations out) (Live.hooks w)).
    assert (Hl1 : forall (cs : list consoleEntry) (hi : list call) (os : ext),
               default [] (Live.hooks (Live.World hs1 cs hi os) !! hookName)
               = (before ++ [callback]) ++ rest).
    { intros. cbn [Live.hooks]. unfold hs1.
      rewrite registrations_elsewhere by assumption. now rewrite Hl, <- app_assoc. }
    assert (Hq1 : forall cb, In cb rest ->
                             Live.settles code cb /\ Live.keeps_off code hookName cb)
      by (intros cb Hin; apply Hq; now right).
    assert (Hturn : forall fuel w2,
               Live.run_callbacks code (S fuel) hookName (length before) result w
               = match c with
                 | Normal output =>
                     Live.run_callbacks code fuel hookName (length (before ++ [callback]))
                       (next_input result c)
                       (Live.World hs1 (Live.console w)
                                   (Live.history w ++ [CallbackCalled hookName result]) o1)
                 | Throw error =>
                     Live.run_callbacks code fuel hookName (length (before ++ [callback]))
                       (next_input result c)
                       (Live.World hs1 (Live.console w ++ [hook_failure hookName error])
                                   (Live.history w ++ [CallbackCalled hookName result]) o1)
                 end).
    { intros fuel _. rewrite run_callbacks_turn, Hl, list_lookup_middle by reflexivity.
      rewrite Hcode. cbn [fst snd]. cbv zeta. rewrite Hc, length_app. cbn [length].
      rewrite Nat.add_1_r. destruct c; reflexivity. }
    destruct c as [output|error].
    + destruct (IH (before ++ [callback]) (next_input result (Normal output))
                   (Live.World hs1 (Live.console w)
                               (Live.history w ++ [CallbackCalled hookName result]) o1)
                   v1 inputs1 errors1 o2 (Hl1 _ _ _) Hq1 Hrest)
        as (w' & Hrun & Hh & Hcon & Hout & Hlen).
      exists w'. cbn [Live.history Live.console] in Hh, Hcon.
      split; [|split; [|split; [|split]]].
      * intros [|fuel] Hf; [inversion Hf|]. rewrite (Hturn fuel w). apply Hrun.
        cbn [length] in Hf. now apply Nat.succ_lt_mono.
      * rewrite Hh, <- app_assoc. reflexivity.
      * exact Hcon.
      * exact Hout.
      * cbn [length]. now rewrite Hlen.
    + destruct (IH (before ++ [callback]) (next_input result (Throw error))
                   (Live.World hs1 (Live.console w ++ [hook_failure hookName error])
                               (Live.history w ++ [CallbackCalled hookName result]) o1)
                   v1 inputs1 errors1 o2 (Hl1 _ _ _) Hq1 Hrest)
        as (w' & Hrun & Hh & Hcon & Hout & Hlen).
      exists w'. cbn [Live.history Live.console] in Hh, Hcon.
      split; [|split; [|split; [|split]]].
      * intros [|fuel] Hf; [inversion Hf|]. rewrite (Hturn fuel w). apply Hrun.
        cbn [length] in Hf. now apply Nat.succ_lt_mono.
      * rewrite Hh, <- app_assoc. reflexivity.
      * rewrite Hcon, <- app_assoc. reflexivity.
      * exact Hout.
      * cbn [length]. now rewrite Hlen.
Qed.

(** Where a callback throws, the one that returns [undefined] in its place
    leaves the same value and the same world outside. *)
Lemma thread_absorbing code callbacks :
  forall data o v inputs errors o',
    Live.thread code callbacks data o = (v, inputs, errors, o') ->
    Live.thread (Live.absorbing code) callbacks data o = (v, inputs, [], o').
Proof.
  induction callbacks as [|callback rest IH]; intros data o v inputs errors o' Ht; cbn in *.
  - now injection Ht as <- <- <- <-.
  - unfold Live.absorbing at 1. destruct (code callback data o) as [out o1].
    cbn [Live.settlement].
    assert (Hn : next_input data
                   (default (Normal VUndefined)
                      match Live.settlement out with
                      | Some (Throw _) => Some (Normal VUndefined)
                      | other => other
                      end)
                 = next_input data (default (Normal VUndefined) (Live.settlement out))).
    { destruct (Live.settlement out) as [[output|error]|]; reflexivity. }
    rewrite Hn.
    destruct (Live.thread code rest _ o1) as [[[v1 inputs1] errors1] o2] eqn:Hrest.
    rewrite (IH _ _ _ _ _ _ Hrest). injection Ht as <- <- <- <-.
    destruct (Live.settlement out) as [[output|error]|]; reflexivity.
Qed.

Lemma absorbing_settles code callback :
  Live.settles code callback -> Live.settles (Live.absorbing code) callback.
Proof.
  intros Hs input o. specialize (Hs input o). unfold Live.absorbing.
  destruct (code callback input o) as [out o1]. cbn [fst Live.settlement] in *.
  destruct (Live.settlement out) as [[output|error]|]; [discriminate|discriminate|contradiction].
Qed.

Lemma absorbing_keeps_off code hookName callback :
  Live.keeps_off code hookName callback ->
  Live.keeps_off (Live.absorbing code) hookName callback.
Proof.
  intros Hk input o name cb. specialize (Hk input o name cb). unfold Live.absorbing.
  destruct (code callback input o) as [out o1]. exact Hk.
Qed.

(** C3, amended. Whatever the callbacks do, [runHook] throws nothing.
    When every callback under the name settles and none registers a
    callback on the hook that is running, [runHook] returns: every callback
    is called once, what one throws is caught and printed on the console,
    the value accumulated so far is kept, and the callbacks after it are
    still called; the result is the one the chain would have had with each
    throwing callback returning [undefined] instead. *)
Theorem runHook_catches_every_throw code hookName data w :
  (forall fuel c w', Live.runHook code fuel hookName data w = Some (c, w') ->
                     exists v, c = Normal v)
  /\ ((forall callback,
         In callback (default [] (Live.hooks w !! hookName)) ->
         Live.settles code callback /\ Live.keeps_off code hookName callback) ->
      exists v inputs errors o w',
        Live.thread code (default [] (Live.hooks w !! hookName)) data (Live.outside w)
        = (v, inputs, errors, o)
        /\ (forall fuel,
              length (default [] (Live.hooks w !! hookName)) < fuel ->
              Live.runHook code fuel hookName data w = Some (Normal v, w'))
        /\ Live.history w'
           = Live.history w ++ HookRun hookName data :: map (CallbackCalled hookName) inputs
        /\ length inputs = length (default [] (Live.hooks w !! hookName))
        /\ Live.console w' = Live.console w ++ map (hook_failure hookName) errors
        /\ Live.outside w' = o
        /\ exists w'',
             (forall fuel,
                length (default [] (Live.hooks w !! hookName)) < fuel ->
                Live.runHook (Live.absorbing code) fuel hookName data w = Some (Normal v, w''))
             /\ Live.outside w'' = o
             /\ Live.console w'' = Live.console w).
Proof.
  split.
  - intros fuel c w'. unfold Live.runHook, Live.bind, Live.record.
    apply run_callbacks_never_throws.
  - intros Hq. set (callbacks := default [] (Live.hooks w !! hookName)) in *.
    destruct (Live.thread code callbacks data (Live.outside w)) as [[[v inputs] errors] o]
      eqn:Ht.
    set (w0 := Live.World (Live.hooks w) (Live.console w)
                          (Live.history w ++ [HookRun hookName data]) (Live.outside w)).
    destruct (run_callbacks_thread_live code hookName callbacks [] data w0 v inputs errors o
                eq_refl Hq Ht) as (w' & Hrun & Hh & Hcon & Hout & Hlen).
    assert (Hq' : forall callback, In callback callbacks ->
                    Live.settles (Live.absorbing code) callback
                    /\ Live.keeps_off (Live.absorbing code) hookName callback).
    { intros callback Hin. destruct (Hq callback Hin).
      split; [now apply absorbing_settles|now apply absorbing_keeps_off]. }
    destruct (run_callbacks_thread_live (Live.absorbing code) hookName callbacks [] data w0
                v inputs [] o eq_refl Hq' (thread_absorbing code callbacks _ _ _ _ _ _ Ht))
      as (w'' & Hrun' & _ & Hcon' & Hout' & _).
    exists v, inputs, errors, o, w'. subst w0. cbn [Live.history Live.console] in *.
    split; [reflexivity|]. split; [exact Hrun|]. split; [now rewrite Hh, <- app_assoc|].
    split; [exact Hlen|]. split; [exact Hcon|]. split; [exact Hout|].
    exists w''. split; [exact Hrun'|]. split; [exact Hout'|].
    now rewrite Hcon', app_nil_r.
Qed.

Lemma plain_settles (cbs : list (callback ext)) place :
  Live.settles (Live.plain cbs) place /\ forall hookName, Live.keeps_off (Live.plain cbs) hookName place.
Proof.
  split.
  - intros input o. unfold Live.plain. destruct (cbs !! place) as [cb|]; [|discriminate].
    now destruct (cb input o).
  - intros hookName input o name cb. unfold Live.plain.
    destruct (cbs !! place) as [f|]; [destruct (f input o)|]; intros [].
Qed.

Lemma thread_plain (cbs rest : list (callback ext)) :
  forall before data o,
    cbs = before ++ rest ->
    Live.thread (Live.plain cbs) (seq (length before) (length rest)) data o
    = (fst (fst (thread rest data o)), snd (fst (thread rest data o)),
       thrown rest data o, snd (thread rest data o)).
Proof.
  induction rest as [|cb rest IH]; intros before data o Hcbs; [reflexivity|].
  cbn [length seq Live.thread thread thrown].
  unfold Live.plain at 1. rewrite Hcbs, list_lookup_middle by reflexivity.
  destruct (cb data o) as [c o1]. cbn [Live.settlement default from_option id].
  pose proof (IH (before ++ [cb]) (next_input data c) o1) as Hrest.
  rewrite length_app, Nat.add_1_r in Hrest. rewrite <- Hcbs.
  rewrite Hrest by (now rewrite Hcbs, <- app_assoc).
  destruct (thread rest (next_input data c) o1) as [[v inputs] o2]. cbn [fst snd].
  destruct c; reflexivity.
Qed.

(** For callbacks that leave the manager alone and always settle, the
    loop over the array as it grows is the loop over the array as it was:
    [Live.runHook] returns what [runHook] returns, and leaves the same
    console, history and world outside. *)
Lemma runHook_agrees hookName data (w : world ext) (lw : Live.world ext) :
  default [] (Live.hooks lw !! hookName)
  = seq 0 (length (default [] (hooks (this w) !! hookName))) ->
  Live.console lw = console w ->
  Live.history lw = history w ->
  Live.outside lw = outside w ->
  exists lw',
    (forall fuel,
       length (default [] (hooks (this w) !! hookName)) < fuel ->
       Live.runHook (Live.plain (default [] (hooks (this w) !! hookName))) fuel hookName data lw
       = Some (fst (runHook hookName data w), lw'))
    /\ Live.console lw' = console (snd (runHook hookName data w))
    /\ Live.history lw' = history (snd (runHook hookName data w))
    /\ Live.outside lw' = outside (snd (runHook hookName data w)).
Proof.
  intros Hl Hc Hh Ho. rewrite runHook_thread. cbv zeta.
  set (cbs := default [] (hooks (this w) !! hookName)) in *.
  set (lw0 := Live.World (Live.hooks lw) (Live.console lw)
                         (Live.history lw ++ [HookRun hookName data]) (Live.outside lw)).
  destruct (run_callbacks_thread_live (Live.plain cbs) hookName (seq 0 (length cbs)) [] data lw0
              (fst (fst (thread cbs data (outside w)))) (snd (fst (thread cbs data (outside w))))
              (thrown cbs data (outside w)) (snd (thread cbs data (outside w))))
    as (lw' & Hrun & Hh' & Hc' & Ho' & _).
  - exact Hl.
  - intros place _. split; [apply plain_settles|apply plain_settles].
  - cbn [Live.outside lw0]. rewrite Ho. exact (thread_plain cbs cbs [] data (outside w) eq_refl).
  - exists lw'. cbn [fst snd console history outside]. subst lw0.
    cbn [Live.history Live.console] in *. split; [|split; [|split]].
    + intros fuel Hf. unfold Live.runHook, Live.bind, Live.record. apply Hrun.
      now rewrite length_seq.
    + now rewrite Hc', Hc.
    + now rewrite Hh', Hh, <- app_assoc.
    + exact Ho'.
Qed.

End LiveHooks.

(** A callback that registers itself on the running hook is followed by
    itself for ever. *)
Lemma again_goes_on fuel :
  forall index result (w : Live.world Examples.routes),
    index < length (default [] (Live.hooks w !! "x")) ->
    Live.run_callbacks Live.again fuel "x" index result w = None.
Proof.
  induction fuel as [|fuel IH]; intros index result w Hi; [reflexivity|].
  rewrite run_callbacks_turn. cbv zeta.
  destruct (lookup_lt_is_Some_2 _ _ Hi) as [callback ->].
  cbn [Live.again fst snd Live.settlement Live.registrations fold_left defined].
  apply IH. cbn [Live.hooks]. rewrite pushed_same, length_app. cbn [length]. lia.
Qed.


(** ** What methods leave alone *)

Section Frame.

Context {ext X : Type}.
Variable obs : world ext -> X.

Lemma preserves_ret {A} (a : A) : preserves obs (ret a).
Proof. intros w. reflexivity. Qed.

Lemma preserves_throw {A} e : preserves obs (@throw ext A e).
Proof. intros w. reflexivity. Qed.

Lemma preserves_lift {A} (c : completion A) : preserves obs (lift c).
Proof. intros w. reflexivity. Qed.

Lemma preserves_get_this : preserves obs get_this.
Proof. intros w. reflexivity. Qed.

Lemma preserves_bind {A B} (c : M ext A) (k : A -> M ext B) :
  preserves obs c -> (forall a, preserves obs (k a)) -> preserves obs (bind c k).
Proof.
  intros Hc Hk w. unfold bind. specialize (Hc w).
  destruct (c w) as [[a|e] w']; cbn [snd] in *; [|assumption].
  now rewrite Hk.
Qed.

Lemma preserves_try_catch {A} (c : M ext A) handler :
  preserves obs c -> (forall e, preserves obs (handler e)) -> preserves obs (try_catch c handler).
Proof.
  intros Hc Hh w. unfold try_catch. specialize (Hc w).
  destruct (c w) as [[a|e] w']; cbn [snd] in *; [assumption|].
  now rewrite Hh.
Qed.

Lemma preserves_for_of {A} (xs : list A) body :
  (forall x, preserves obs (body x)) -> preserves obs (for_of xs body).
Proof.
  intros Hb. induction xs as [|x xs IH]; cbn [for_of].
  - apply preserves_ret.
  - apply preserves_bind; auto.
Qed.

End Frame.

Create HintDb frame discriminated.
#[export] Hint Resolve preserves_ret preserves_throw preserves_lift preserves_get_this
  preserves_bind preserves_try_catch preserves_for_of : frame.

(** ** Histories *)

Lemma init_calls_app (h1 h2 : list call) :
  init_calls (h1 ++ h2) = init_calls h1 ++ init_calls h2.
Proof.
  induction h1 as [|[name|hookName data|hookName input] h1 IH]; cbn; congruence.
Qed.

Lemma hook_runs_app (h1 h2 : list call) :
  hook_runs (h1 ++ h2) = hook_runs h1 ++ hook_runs h2.
Proof.
  induction h1 as [|[name|hookName data|hookName input] h1 IH]; cbn; congruence.
Qed.

Lemma callback_inputs_app (h1 h2 : list call) :
  callback_inputs (h1 ++ h2) = callback_inputs h1 ++ callback_inputs h2.
Proof.
  induction h1 as [|[name|hookName data|hookName input] h1 IH]; cbn; congruence.
Qed.

Lemma init_calls_callbacks hookName (inputs : list value) :
  init_calls (map (CallbackCalled hookName) inputs) = [].
Proof. induction inputs; cbn; auto. Qed.

Lemma hook_runs_callbacks hookName (inputs : list value) :
  hook_runs (map (CallbackCalled hookName) inputs) = [].
Proof. induction inputs; cbn; auto. Qed.


(** ** init *)

Section Init.

Context {ext : Type}.

Lemma for_of_app {A} (xs ys : list A) (body : A -> M ext unit) (w : world ext) :
  for_of (xs ++ ys) body w
  = match for_of xs body w with
    | (Normal _, w1) => for_of ys body w1
    | (Throw e, w1) => (Throw e, w1)
    end.
Proof.
  revert w. induction xs as [|x xs IH]; intros w; cbn [app for_of]; [reflexivity|].
  unfold bind. destruct (body x w) as [[[]|e] w1]; [apply IH | reflexivity].
Qed.

(** The calls an [init] body makes on the manager touch its hooks and its
    middleware, and they return. *)
Lemma apply_effect_frame (e : effect ext) :
  preserves (fun w => (plugins (this w), initialized (this w), console w, history w, outside w))
            (apply_effect e).
Proof.
  intros w. destruct e as [mw|hookName cb]; cbn.
  - reflexivity.
  - unfold registerHook, bind, get_this, set_this. cbn.
    destruct (hooks (this w) !! hookName); reflexivity.
Qed.

Lemma apply_effect_normal (e : effect ext) (w : world ext) :
  fst (apply_effect e w) = Normal tt.
Proof.
  destruct e as [mw|hookName cb]; cbn; [reflexivity|].
  unfold registerHook, bind, get_this, set_this. cbn. reflexivity.
Qed.

Lemma effects_normal (effs : list (effect ext)) (w : world ext) :
  fst (for_of effs apply_effect w) = Normal tt.
Proof.
  revert w. induction effs as [|e effs IH]; intros w; cbn [for_of]; [reflexivity|].
  unfold bind. pose proof (apply_effect_normal e w) as He.
  destruct (apply_effect e w) as [[[]|x] w1]; cbn in He; [apply IH | discriminate].
Qed.

Lemma effects_frame (effs : list (effect ext)) :
  preserves (fun w => (plugins (this w), initialized (this w), console w, history w, outside w))
            (for_of effs apply_effect).
Proof. apply preserves_for_of, apply_effect_frame. Qed.

(** The world after the body of an [init] has run: the call is in the
    history, the world outside is what the body made of it, and its calls
    on the manager have been carried out. *)
Lemma call_init_unfold name (p : plugin ext) f app (w : world ext) :
  plugin_init p = InitFunction f ->
  call_init name p app w
  = (match snd (fst (f app (outside w))) with
     | Normal _ => Normal tt
     | Throw e => Throw e
     end,
     snd (for_of (fst (fst (f app (outside w)))) apply_effect
                 (World (this w) (console w) (history w ++ [InitCalled name])
                        (snd (f app (outside w)))))).
Proof.
  intros Hf. unfold call_init. rewrite Hf.
  unfold bind at 1, record. unfold bind at 1, enter_init. cbn [outside this console history].
  destruct (f app (outside w)) as [[effs c] o]. cbn [fst snd]. unfold bind.
  pose proof (effects_normal effs (World (this w) (console w) (history w ++ [InitCalled name]) o)) as Hn.
  destruct (for_of effs apply_effect _) as [[[]|x] w1]; cbn in Hn; [|discriminate].
  destruct c as [[]|e]; reflexivity.
Qed.

Lemma call_init_not_function name (p : plugin ext) app (w : world ext) :
  (forall f, plugin_init p <> InitFunction f) ->
  call_init name p app w = (Throw (Error "pluginData.instance.init is not a function"), w).
Proof.
  intros Hf. unfold call_init. destruct (plugin_init p); try reflexivity.
  now destruct (Hf f).
Qed.

Lemma init_one_calls app (entry : string * pluginData ext) (w : world ext) :
  init_calls (history (snd (init_one app entry w)))
  = init_calls (history w) ++ entered entry.
Proof.
  destruct entry as [name d]. unfold init_one, entered. cbn [fst snd].
  destruct (enabled d); cbn [negb].
  - unfold try_catch, bind.
    destruct (plugin_init (instance d)) as [|v|f] eqn:Hf.
    + rewrite call_init_not_function by (intros f; congruence).
      cbn. now rewrite app_nil_r.
    + rewrite call_init_not_function by (intros f; congruence).
      cbn. now rewrite app_nil_r.
    + rewrite (call_init_unfold _ _ f) by assumption.
      set (w0 := World _ _ _ _).
      pose proof (effects_frame (fst (fst (f app (outside w)))) w0) as Hfr.
      destruct (f app (outside w)) as [[effs c] o]. cbn [fst snd] in *.
      injection Hfr as _ _ _ Hh _.
      destruct c as [[]|e]; cbn; rewrite Hh; subst w0; cbn; now rewrite init_calls_app.
  - cbn. now rewrite app_nil_r.
Qed.

Lemma record_init_frame name : preserves (@beside_init ext) (record (InitCalled name)).
Proof.
  intros w. unfold beside_init, record. cbn.
  now rewrite hook_runs_app, callback_inputs_app, !app_nil_r.
Qed.

Lemma init_one_frame app (entry : string * pluginData ext) :
  preserves beside_init (init_one app entry).
Proof.
  destruct entry as [name d]. unfold init_one.
  destruct (enabled d); cbn [negb]; [|intros w; reflexivity].
  apply preserves_try_catch.
  - apply preserves_bind; [|intros _ w; reflexivity].
    unfold call_init. destruct (plugin_init (instance d)) as [|v|f]; auto with frame.
    apply preserves_bind; [apply record_init_frame|intros _].
    apply preserves_bind; [intros w; unfold enter_init; now destruct (f app (outside w))|].
    intros r. apply preserves_bind.
    + intros w. pose proof (effects_frame (fst r) w) as Hfr.
      unfold beside_init. injection Hfr as -> -> _ -> _. reflexivity.
    + intros _. destruct (snd r); auto with frame.
  - intros e. apply preserves_bind; [intros w; reflexivity|auto with frame].
Qed.

(** An enabled plugin whose [init] returned had a callable [init]. *)
Lemma init_one_normal app (entry : string * pluginData ext) (w : world ext) :
  fst (init_one app entry w) = Normal tt ->
  entered entry = if enabled (snd entry) then [fst entry] else [].
Proof.
  destruct entry as [name d]. unfold init_one, entered. cbn [fst snd].
  destruct (enabled d); cbn [negb]; [|reflexivity].
  destruct (plugin_init (instance d)) as [|v|f] eqn:Hf; [| |reflexivity];
    unfold try_catch, bind;
    rewrite call_init_not_function by (intros f; congruence); cbn; discriminate.
Qed.

Lemma enabled_names_cons (entry : string * pluginData ext) ps :
  enabled_names (entry :: ps)
  = (if enabled (snd entry) then [fst entry] else []) ++ enabled_names ps.
Proof. destruct entry as [name d]. cbn. now destruct (enabled d). Qed.

Lemma entered_prefix (entry : string * pluginData ext) ps :
  entered entry `prefix_of` enabled_names (entry :: ps).
Proof.
  rewrite enabled_names_cons. unfold entered.
  destruct (enabled (snd entry)); [|apply prefix_nil].
  destruct (plugin_init (instance (snd entry))); try apply prefix_nil.
  now apply prefix_app_r.
Qed.

(** The loop of [init] enters the [init] of the enabled plugins in
    registration order, all of them if it comes to its end, and those up
    to the one that threw otherwise. *)
Lemma init_loop_calls app (ps : list (string * pluginData ext)) (w : world ext) :
  exists called,
    init_calls (history (snd (for_of ps (init_one app) w))) = init_calls (history w) ++ called
    /\ called `prefix_of` enabled_names ps
    /\ (fst (for_of ps (init_one app) w) = Normal tt -> called = enabled_names ps).
Proof.
  revert w. induction ps as [|entry ps IH]; intros w.
  - exists []. cbn. rewrite app_nil_r. repeat split; auto.
  - cbn [for_of]. unfold bind.
    pose proof (init_one_calls app entry w) as Hc.
    pose proof (init_one_normal app entry w) as Hn.
    destruct (init_one app entry w) as [[[]|e] w1]; cbn [fst snd] in *.
    + destruct (IH w1) as (called & Hh & Hp & Hall).
      exists (entered entry ++ called). rewrite Hh, Hc, <- app_assoc.
      rewrite enabled_names_cons, Hn by reflexivity.
      repeat split; auto.
      * now apply prefix_app.
      * intros Hf. now rewrite Hall.
    + exists (entered entry). repeat split; auto.
      * apply entered_prefix.
      * discriminate.
Qed.

Lemma init_loop_frame app (ps : list (string * pluginData ext)) :
  preserves beside_init (for_of ps (init_one app)).
Proof. apply preserves_for_of. intros entry. apply init_one_frame. Qed.

(** [init] on a manager that is already initialized. *)
Lemma init_again app (w : world ext) :
  initialized (this w) = true -> init app w = (Normal tt, warned w).
Proof.
  intros Hi. unfold init, bind at 1, get_this. now rewrite Hi.
Qed.

(** [init] on a manager that is not. *)
Lemma init_first app (w : world ext) :
  initialized (this w) = false ->
  init app w
  = match for_of (plugins (this w)) (init_one app) (announced w) with
    | (Normal _, w1) =>
        (Normal tt, snd (runHook "plugins:initialized" (VObj [("app", app)]) (marked w1)))
    | (Throw e, w1) => (Throw e, w1)
    end.
Proof.
  intros Hi. unfold init, bind at 1, get_this. rewrite Hi.
  unfold bind at 1, console_log, print. fold (announced w).
  unfold bind at 1.
  destruct (for_of (plugins (this w)) (init_one app) (announced w)) as [[[]|e] w1];
    [|reflexivity].
  unfold bind at 1. unfold bind at 1, get_this, set_this. cbn [this console history outside].
  fold (marked w1). unfold bind. rewrite runHook_thread. reflexivity.
Qed.

Lemma runHook_this hookName data (w : world ext) :
  this (snd (runHook hookName data w)) = this w.
Proof. now rewrite runHook_thread. Qed.

Lemma runHook_init_calls hookName data (w : world ext) :
  init_calls (history (snd (runHook hookName data w))) = init_calls (history w).
Proof.
  rewrite runHook_thread. cbn.
  now rewrite init_calls_app; cbn; rewrite init_calls_callbacks, app_nil_r.
Qed.


(** [init] returns only with [this.initialized] set. *)
Lemma init_normal_initialized app (w w1 : world ext) :
  init app w = (Normal tt, w1) -> initialized (this w1) = true.
Proof.
  destruct (initialized (this w)) eqn:Hi.
  - rewrite init_again by assumption. intros [= <-]. exact Hi.
  - rewrite init_first by assumption.
    destruct (for_of _ _ _) as [[[]|e] w']; [|discriminate].
    intros [= <-]. now rewrite runHook_this.
Qed.

(** An enabled plugin whose [init] throws stops [init_one] with that
    error, printed last. *)
Lemma init_one_throws app name (d : pluginData ext) f e (w : world ext) :
  enabled d = true ->
  plugin_init (instance d) = InitFunction f ->
  snd (fst (f app (outside w))) = Throw e ->
  exists w2,
    init_one app (name, d) w = (Throw e, w2)
    /\ last (console w2) = Some (init_failure name e).
Proof.
  intros He Hf Hthrow. unfold init_one. rewrite He. cbn [negb].
  unfold try_catch, bind at 1. rewrite (call_init_unfold _ _ f) by assumption.
  rewrite Hthrow. unfold bind, console_error, print, throw.
  eexists. split; [reflexivity|]. cbn [console]. apply last_snoc.
Qed.


(** C5. On a manager that is not initialized yet, let an enabled plugin's
    [init] throw after the plugins registered before it went through the
    loop. Then [init] rejects with that very error, printed on the console.
    The [init] functions entered are those of the enabled plugins
    registered before, in registration order, then the failing one: a
    disabled plugin is passed over and no plugin registered after the
    failing one is entered. No hook is run, no callback is called, and
    the manager is left uninitialized. *)
Theorem init_failure_is_fatal app (w : world ext) pre name d post f w1 effs e o :
  initialized (this w) = false ->
  plugins (this w) = pre ++ (name, d) :: post ->
  for_of pre (init_one app) (announced w) = (Normal tt, w1) ->
  enabled d = true ->
  plugin_init (instance d) = InitFunction f ->
  f app (outside w1) = ((effs, Throw e), o) ->
  exists w2,
    init app w = (Throw e, w2)
    /\ init_calls (history w2) = init_calls (history w) ++ enabled_names pre ++ [name]
    /\ hook_runs (history w2) = hook_runs (history w)
    /\ callback_inputs (history w2) = callback_inputs (history w)
    /\ initialized (this w2) = false
    /\ last (console w2) = Some (init_failure name e).
Proof.
  intros Hi Hps Hpre He Hf Hthrow.
  destruct (init_one_throws app name d f e w1 He Hf) as (w2 & Hone & Hlast).
  { now rewrite Hthrow. }
  exists w2. rewrite init_first, Hps, for_of_app, Hpre by assumption.
  cbn [for_of]. unfold bind. rewrite Hone. split; [reflexivity|].
  destruct (init_loop_calls app pre (announced w)) as (called & Hh & _ & Hall).
  rewrite Hpre in Hh, Hall. cbn [fst snd] in Hh, Hall. rewrite Hall in Hh by reflexivity.
  pose proof (init_one_calls app (name, d) w1) as Hc.
  rewrite Hone in Hc. cbn [snd] in Hc. unfold entered in Hc. cbn [fst snd] in Hc.
  rewrite He, Hf in Hc.
  pose proof (init_loop_frame app pre (announced w)) as Hfr1.
  pose proof (init_one_frame app (name, d) w1) as Hfr2.
  rewrite Hpre in Hfr1. rewrite Hone in Hfr2. cbn [snd] in Hfr1, Hfr2.
  rewrite Hfr1 in Hfr2. unfold beside_init in Hfr2. cbn in Hfr2.
  injection Hfr2 as H1 H2 H3 H4.
  rewrite Hc, Hh. cbn [announced history]. rewrite <- app_assoc.
  repeat split; auto. congruence.
Qed.


End Init.

(** ** The loader *)

Section Loader.

Context {ext : Type}.
Variable host : Host ext.

Lemma has_set_same (ps : list (string * pluginData ext)) name d :
  has (set ps name d) name = true.
Proof.
  unfold has. induction ps as [|[k x] ps IH]; cbn.
  - now rewrite String.eqb_refl.
  - destruct (String.eqb k name) eqn:Hk; cbn; rewrite Hk; [reflexivity|exact IH].
Qed.

Lemma has_set_mono (ps : list (string * pluginData ext)) name d n :
  has ps n = true -> has (set ps name d) n = true.
Proof.
  unfold has. induction ps as [|[k x] ps IH]; cbn; [discriminate|].
  destruct (String.eqb k name) eqn:Hk; cbn; destruct (String.eqb k n); auto.
Qed.

(** [load], case by case. *)
Lemma load_unfold pluginPath (w : world ext) :
  load host pluginPath w
  = let failed e w' :=
      (Throw e,
       World (this w')
             (console w' ++ [Console LError ("[PluginManager] Failed to load plugin from "
                                               ++ dq ++ pluginPath ++ dq ++ ":")
                                     (ErrorObject e)])
             (history w') (outside w')) in
    match require host pluginPath with
    | Throw e => failed e w
    | Normal p =>
        match register (name_for p pluginPath) p w with
        | (Normal _, w') => (Normal (name_for p pluginPath), w')
        | (Throw e, w') => failed e w'
        end
    end.
Proof.
  unfold load, try_catch, bind at 1, lift.
  destruct (require host pluginPath) as [p|e]; [|reflexivity].
  unfold bind at 1. destruct (register _ p w) as [[s|e] w']; reflexivity.
Qed.


(** [attempt], case by case. *)
Lemma attempt_unfold (file : string) (w : world ext) :
  attempt host file w
  = let printed e w' :=
      World (this w')
            (console w' ++ [Console LError ("[PluginManager] Failed to load plugin from "
                                              ++ dq ++ file ++ dq ++ ":")
                                    (ErrorObject e)])
            (history w') (outside w') in
    let logged text w' :=
      World (this w') (console w' ++ [load_failure file text]) (history w') (outside w') in
    match require host file with
    | Throw e =>
        match message e with
        | Normal text => (Normal tt, logged text (printed e w))
        | Throw te => (Throw te, printed e w)
        end
    | Normal p =>
        if has (plugins (this w)) (name_for p file) then
          let e := Error ("Plugin " ++ dq ++ name_for p file ++ dq ++ " is already registered") in
          (Normal tt, logged (VStr ("Plugin " ++ dq ++ name_for p file ++ dq
                                              ++ " is already registered"))
                             (printed e w))
        else if lacks_init p then
          let e := Error ("Plugin " ++ dq ++ name_for p file ++ dq
                                    ++ " must have an init() method") in
          (Normal tt, logged (VStr ("Plugin " ++ dq ++ name_for p file ++ dq
                                              ++ " must have an init() method"))
                             (printed e w))
        else (Normal tt, snd (register (name_for p file) p w))
    end.
Proof.
  unfold attempt. rewrite load_unfold. cbv zeta.
  destruct (require host file) as [p|e].
  - rewrite register_unfold.
    destruct (has (plugins (this w)) (name_for p file)); [reflexivity|].
    destruct (lacks_init p); reflexivity.
  - destruct (message e); reflexivity.
Qed.

Lemma attempt_has (file : string) (w : world ext) n :
  has (plugins (this w)) n = true ->
  has (plugins (this (snd (attempt host file w)))) n = true.
Proof.
  intros Hn. rewrite attempt_unfold. cbv zeta.
  destruct (require host file) as [p|e]; [|destruct (message e); exact Hn].
  destruct (has (plugins (this w)) (name_for p file)); [exact Hn|].
  destruct (lacks_init p); [exact Hn|].
  rewrite register_unfold.
  destruct (has (plugins (this w)) (name_for p file)); [exact Hn|].
  destruct (lacks_init p); [exact Hn|].
  cbn. now apply has_set_mono.
Qed.

Lemma attempt_console (file : string) (w : world ext) entry :
  In entry (console w) -> In entry (console (snd (attempt host file w))).
Proof.
  intros Hn. rewrite attempt_unfold. cbv zeta.
  destruct (require host file) as [p|e];
    [|destruct (message e); cbn; rewrite !in_app_iff; auto].
  destruct (has (plugins (this w)) (name_for p file)); [cbn; rewrite !in_app_iff; auto|].
  destruct (lacks_init p); [cbn; rewrite !in_app_iff; auto|].
  rewrite register_unfold.
  destruct (has (plugins (this w)) (name_for p file)); [cbn; rewrite ?in_app_iff; auto|].
  destruct (lacks_init p); cbn; rewrite ?in_app_iff; auto.
Qed.

(** The body of the loop returns for a file whose failure has a message
    to read. *)
Lemma attempt_returns (file : string) (w : world ext) :
  readable host file -> fst (attempt host file w) = Normal tt.
Proof.
  intros Hr. rewrite attempt_unfold. cbv zeta. unfold readable in Hr.
  destruct (require host file) as [p|e].
  - destruct (has (plugins (this w)) (name_for p file)); [reflexivity|].
    destruct (lacks_init p); reflexivity.
  - destruct (Hr e eq_refl) as [text ->]. reflexivity.
Qed.

(** After the attempt such a file is registered or its failure is on the
    console. *)
Lemma attempt_settles (file : string) (w : world ext) :
  readable host file ->
  (exists p, require host file = Normal p
             /\ has (plugins (this (snd (attempt host file w)))) (name_for p file) = true)
  \/ (exists text, In (load_failure file text) (console (snd (attempt host file w)))).
Proof.
  intros Hr. rewrite attempt_unfold. cbv zeta. unfold readable in Hr.
  destruct (require host file) as [p|e].
  - destruct (has (plugins (this w)) (name_for p file)) eqn:Hhas.
    + left. exists p. split; [reflexivity|exact Hhas].
    + destruct (lacks_init p) eqn:Hinit.
      * right. eexists. cbn. rewrite !in_app_iff. right. left. reflexivity.
      * left. exists p. split; [reflexivity|]. rewrite register_unfold, Hhas, Hinit.
        cbn. apply has_set_same.
  - right. destruct (Hr e eq_refl) as [text ->]. exists text.
    cbn. rewrite !in_app_iff. right. left. reflexivity.
Qed.

Lemma attempts_cons file files (w : world ext) :
  attempts host (file :: files) w
  = match fst (attempt host file w) with
    | Normal _ => attempts host files (snd (attempt host file w))
    | Throw e => (Throw e, snd (attempt host file w))
    end.
Proof. cbn [attempts]. destruct (attempt host file w) as [[[]|e] w']; reflexivity. Qed.

Lemma attempts_has files (w : world ext) n :
  has (plugins (this w)) n = true ->
  has (plugins (this (snd (attempts host files w)))) n = true.
Proof.
  revert w. induction files as [|file files IH]; intros w Hn; [exact Hn|].
  rewrite attempts_cons. pose proof (attempt_has file w n Hn) as H1.
  destruct (fst (attempt host file w)); [now apply IH|exact H1].
Qed.

Lemma attempts_console files (w : world ext) entry :
  In entry (console w) ->
  In entry (console (snd (attempts host files w))).
Proof.
  revert w. induction files as [|file files IH]; intros w Hn; [exact Hn|].
  rewrite attempts_cons. pose proof (attempt_console file w entry Hn) as H1.
  destruct (fst (attempt host file w)); [now apply IH|exact H1].
Qed.

(** Over files whose failures have a message to read the loop goes to the
    end of the list. *)
Lemma attempts_returns files (w : world ext) :
  (forall file, In file files -> readable host file) ->
  attempts host files w
  = (Normal tt, fold_left (fun w file => snd (attempt host file w)) files w).
Proof.
  revert w. induction files as [|file files IH]; intros w Hr; [reflexivity|].
  rewrite attempts_cons, attempt_returns by (apply Hr; now left).
  cbn [fold_left]. apply IH. intros f Hf. apply Hr. now right.
Qed.

(** The loop of [loadFromDirectory] runs its body on one file after the
    other, up to the first throw that leaves the body. *)
Lemma load_loop files (w : world ext) :
  for_of files (fun file =>
    try_catch
      (let! _name := load host file in ret tt)
      (fun error =>
         let! text := lift (message error) in
         console_error ("[PluginManager] Failed to load " ++ file ++ ":")
                       (Printed text))) w
  = attempts host files w.
Proof.
  revert w. induction files as [|file files IH]; intros w; cbn [for_of attempts]; [reflexivity|].
  unfold bind at 1, try_catch, bind at 1. unfold attempt.
  destruct (load host file w) as [[name|e] w']; cbn; [apply IH|].
  unfold bind at 1, lift. destruct (message e) as [text|te]; cbn; [apply IH|reflexivity].
Qed.

Lemma loadFromDirectory_missing pluginsDir (w : world ext) :
  existsSync host pluginsDir = false ->
  loadFromDirectory host pluginsDir w = (Normal tt, missing pluginsDir w).
Proof. intros He. unfold loadFromDirectory. now rewrite He. Qed.

(** [loadFromDirectory] goes through the names [readdirSync] returned in
    the order it returned them in. *)
Lemma loadFromDirectory_unfold pluginsDir listing (w : world ext) :
  existsSync host pluginsDir = true ->
  readdirSync host pluginsDir = Normal listing ->
  loadFromDirectory host pluginsDir w
  = attempts host
             (map (path_join host pluginsDir) (List.filter (Js.endsWith ".js") listing))
             (scanning host pluginsDir listing w).
Proof.
  intros He Hl. unfold loadFromDirectory. rewrite He, Hl. cbn [negb].
  unfold bind at 1, lift. unfold bind at 1, console_log, print.
  fold (scanning host pluginsDir listing w). apply load_loop.
Qed.





(** C7, amended. On a path at which nothing exists, [loadFromDirectory]
    prints a warning and returns; the manager, with its map of plugins, is
    what it was. In a directory that exists, and whose modules throw values
    that have a [message] to read when they throw (anything but [null] and
    [undefined]), it returns after it has attempted every file of its list
    in turn: a file whose [load] throws has its failure printed and the
    files after it are attempted all the same, so that in the end each file
    is registered or has its failure on the console. *)
Theorem loadFromDirectory_tolerates_failures pluginsDir (w : world ext) :
  (existsSync host pluginsDir = false ->
   loadFromDirectory host pluginsDir w = (Normal tt, missing pluginsDir w)
   /\ this (missing pluginsDir w) = this w)
  /\ (forall listing,
        existsSync host pluginsDir = true ->
        readdirSync host pluginsDir = Normal listing ->
        (forall file, In file (files_of host pluginsDir listing) -> readable host file) ->
        exists w',
          loadFromDirectory host pluginsDir w = (Normal tt, w')
          /\ w' = fold_left (fun w file => snd (attempt host file w))
                            (files_of host pluginsDir listing)
                            (scanning host pluginsDir listing w)
          /\ forall file, In file (files_of host pluginsDir listing) ->
               (exists p, require host file = Normal p
                          /\ has (plugins (this w')) (name_for p file) = true)
               \/ (exists text, In (load_failure file text) (console w'))).
Proof.
  split.
  - intros He. split; [now apply loadFromDirectory_missing|reflexivity].
  - intros listing He Hl Hr.
    rewrite (loadFromDirectory_unfold pluginsDir listing) by assumption.
    fold (files_of host pluginsDir listing).
    rewrite attempts_returns by assumption.
    eexists. split; [reflexivity|]. split; [reflexivity|].
    revert Hr. generalize (scanning host pluginsDir listing w) as w0.
    induction (files_of host pluginsDir listing) as [|f files IH]; intros w0 Hr file Hin;
      [contradiction|]. cbn [fold_left].
    destruct Hin as [<-|Hin]; [|apply IH; [intros g Hg; apply Hr; now right|exact Hin]].
    assert (Hrest : forall g, In g files -> readable host g)
      by (intros g Hg; apply Hr; now right).
    pose proof (attempts_returns files (snd (attempt host f w0)) Hrest) as Heq.
    apply (f_equal snd) in Heq. cbn [snd] in Heq. rewrite <- Heq.
    destruct (attempt_settles f w0 (Hr f (or_introl eq_refl))) as [(p & Hp & Hhas)|(text & Hlog)].
    + left. exists p. split; [assumption|]. now apply attempts_has.
    + right. exists text. now apply attempts_console.
Qed.

End Loader.

(** ** After a successful init *)

Section Settled.

Context {ext : Type}.
Variable host : Host ext.

Lemma register_settled name (p : plugin ext) (w : world ext) :
  settled (snd (register name p w)) = settled w.
Proof.
  rewrite register_unfold.
  destruct (has (plugins (this w)) name); [reflexivity|].
  destruct (lacks_init p); reflexivity.
Qed.

Lemma load_settled pluginPath (w : world ext) :
  settled (snd (load host pluginPath w)) = settled w.
Proof.
  rewrite load_unfold. cbv zeta.
  destruct (require host pluginPath) as [p|e]; [|reflexivity].
  pose proof (register_settled (name_for p pluginPath) p w) as Hr.
  destruct (register _ p w) as [[s|e] w']; exact Hr.
Qed.

Lemma attempt_settled file (w : world ext) :
  settled (snd (attempt host file w)) = settled w.
Proof.
  unfold attempt. pose proof (load_settled file w) as Hl.
  destruct (load host file w) as [[name|e] w']; [exact Hl|].
  destruct (message e); exact Hl.
Qed.

Lemma attempts_settled files (w : world ext) :
  settled (snd (attempts host files w)) = settled w.
Proof.
  revert w. induction files as [|file files IH]; intros w; [reflexivity|].
  rewrite attempts_cons. pose proof (attempt_settled file w) as H1.
  destruct (fst (attempt host file w)); [now rewrite IH|exact H1].
Qed.

Lemma loadFromDirectory_settled pluginsDir (w : world ext) :
  settled (snd (loadFromDirectory host pluginsDir w)) = settled w.
Proof.
  destruct (existsSync host pluginsDir) eqn:He.
  - destruct (readdirSync host pluginsDir) as [listing|e] eqn:Hl.
    + rewrite (loadFromDirectory_unfold host pluginsDir listing) by assumption.
      now rewrite attempts_settled.
    + unfold loadFromDirectory. rewrite He, Hl. reflexivity.
  - now rewrite loadFromDirectory_missing.
Qed.

(** Once [this.initialized] is set, no method resets it and none enters
    the [init] of a plugin. *)
Lemma exec_settled (o : op) (w : world ext) :
  initialized (this w) = true -> settled (exec host o w) = settled w.
Proof.
  intros Hi. destruct o; cbn [exec].
  - apply register_settled.
  - now rewrite init_again.
  - unfold registerHook, bind, get_this, set_this. cbn.
    destruct (hooks (this w) !! hookName); reflexivity.
  - unfold settled. now rewrite runHook_this, runHook_init_calls.
  - reflexivity.
  - reflexivity.
  - unfold enable, bind, get_this. cbn. destruct (get (plugins (this w)) name); reflexivity.
  - unfold disable, bind, get_this. cbn. destruct (get (plugins (this w)) name); reflexivity.
  - reflexivity.
  - reflexivity.
  - apply load_settled.
  - apply loadFromDirectory_settled.
Qed.

Lemma run_ops_settled (ops : list op) (w : world ext) :
  initialized (this w) = true -> settled (run_ops host ops w) = settled w.
Proof.
  revert w. unfold run_ops.
  induction ops as [|o ops IH]; intros w Hi; cbn [fold_left]; [reflexivity|].
  pose proof (exec_settled o w Hi) as Ho.
  rewrite IH, Ho; [reflexivity|].
  unfold settled in Ho. congruence.
Qed.

(** C6. Once [init] has returned, every later call of it -- whatever was
    called in between -- returns at once after a warning, and none of
    these calls enters the [init] of a plugin. Called again and again,
    [init] leaves the manager, the history of calls into plugin code (no
    [init] entered, no hook run) and the world outside as they were. *)
Theorem init_twice_is_noop app app' (w w1 : world ext) :
  init app w = (Normal tt, w1) ->
  (forall between,
     init app' (run_ops host between w1) = (Normal tt, warned (run_ops host between w1))
     /\ init_calls (history (run_ops host between w1)) = init_calls (history w1))
  /\ forall n,
       let wn := Nat.iter n (fun w' => snd (init app' w')) w1 in
       this wn = this w1
       /\ history wn = history w1
       /\ outside wn = outside w1
       /\ length (console wn) = length (console w1) + n.
Proof.
  intros Hinit. apply init_normal_initialized in Hinit. split.
  - intros between. pose proof (run_ops_settled between w1 Hinit) as Hs.
    unfold settled in Hs. injection Hs as Hflag Hcalls.
    split; [apply init_again; congruence|assumption].
  - induction n as [|n IH]; cbv zeta in *.
    + cbn. repeat split; auto with arith.
    + rewrite Nat.iter_succ. destruct IH as (Ht & Hh & Ho & Hc).
      rewrite init_again by congruence.
      cbn [snd warned this history outside console].
      rewrite length_app. cbn [length]. repeat split; auto; lia.
Qed.

(** C10. After [init] has returned -- and whatever was called since --
    [register] accepts a plugin under a new name: it returns the manager,
    and [list()] ends with the new record, enabled. Whatever is called
    afterwards, [enable], [disable] and [init] included, the [init] of no
    plugin is entered any more, and every call of [init] is answered with
    the warning alone. *)
Theorem late_plugin_is_never_initialized app (w0 w : world ext) before name (p : plugin ext) :
  init app w0 = (Normal tt, w) ->
  has (plugins (this (run_ops host before w))) name = false ->
  lacks_init p = false ->
  exists w1,
    register name p (run_ops host before w) = (Normal (this w1), w1)
    /\ list_of (this w1)
       = list_of (this (run_ops host before w))
           ++ [Listed name true (default no_metadata (plugin_metadata p))]
    /\ forall after app',
         init_calls (history (run_ops host after w1)) = init_calls (history w)
         /\ initialized (this (run_ops host after w1)) = true
         /\ init app' (run_ops host after w1) = (Normal tt, warned (run_ops host after w1)).
Proof.
  intros Hinit Hfresh Hp. apply init_normal_initialized in Hinit.
  pose proof (run_ops_settled before w Hinit) as Hb.
  set (w' := run_ops host before w) in *.
  exists (registered name p w'). rewrite register_unfold, Hfresh, Hp.
  split; [reflexivity|]. split.
  - unfold registered, list_of. cbn [this plugins].
    rewrite set_fresh by assumption. now rewrite map_app.
  - intros after app'.
    assert (Hi1 : initialized (this (registered name p w')) = true).
    { unfold settled in Hb. cbn. congruence. }
    pose proof (run_ops_settled after _ Hi1) as Ha.
    unfold settled in Ha, Hb. cbn [registered this history initialized] in Ha.
    injection Ha as Ha1 Ha2. injection Hb as Hb1 Hb2.
    assert (initialized (this (run_ops host after (registered name p w'))) = true) by congruence.
    repeat split; [congruence|assumption|now apply init_again].
Qed.

End Settled.

(** ** The methods at work *)

Module Runs.

Import Examples.


(** C8. A module without metadata in [chart.js-adapter.js] is registered
    as [chart-adapter.js]: [replace] takes out the first [.js] of the
    base name, not the extension at its end. *)
Theorem load_strips_first_occurrence :
  fst (load dotted "plugins/chart.js-adapter.js" start) = Normal "chart-adapter.js"
  /\ map l_name (list_of (this (snd (load dotted "plugins/chart.js-adapter.js" start))))
     = ["chart-adapter.js"]
  /\ file_name "plugins/chart.js-adapter.js" <> "chart.js-adapter".
Proof. repeat split; try (vm_compute; reflexivity). vm_compute. discriminate. Qed.

(** [runHook] over [returns undefined; returns "w"] gives ["w"]. *)
Lemma runHook_threads_data_witness :
  fst (runHook "x" (VNum 1) chained) = Normal (VStr "w").
Proof.
  apply (proj2 (proj2 (proj2 (runHook_threads_data "x" (VNum 1) chained)))
               (returns VUndefined) (returns (VStr "w")) (VStr "w") [] []);
    reflexivity.
Defined.

(** Three callbacks, the second of which throws and registers on another
    hook: [runHook] returns. *)
Lemma runHook_catches_every_throw_witness :
  exists v w',
    forall fuel,
      3 < fuel ->
      Live.runHook Live.trio fuel "x" (VNum 1) (Live.hooked [0; 1; 2]) = Some (Normal v, w').
Proof.
  destruct (proj2 (runHook_catches_every_throw Live.trio "x" (VNum 1) (Live.hooked [0; 1; 2])))
    as (v & inputs & errors & o & w' & _ & Hrun & _).
  - intros callback _. split.
    + intros input o. destruct callback as [|[|callback]]; discriminate.
    + intros input o name cb. destruct callback as [|[|callback]]; cbn.
      * intros [].
      * intros [[= <- _]|[]]. discriminate.
      * intros [].
  - exists v, w'. exact Hrun.
Defined.

(** C3, as stated. A callback that registers itself on the hook that is
    running is called again and again, and a callback whose promise is
    never settled is awaited for ever: in neither case does [runHook]
    return, however long it is given. *)
Lemma runHook_may_not_return :
  (forall fuel, Live.runHook Live.again fuel "x" (VNum 1) (Live.hooked [0]) = None)
  /\ (forall fuel, Live.runHook Live.never fuel "x" (VNum 1) (Live.hooked [0]) = None).
Proof.
  split; intros fuel; unfold Live.runHook, Live.bind, Live.record.
  - apply again_goes_on. cbn [Live.hooks Live.hooked]. rewrite lookup_insert_eq. cbn. lia.
  - destruct fuel as [|fuel]; [reflexivity|].
    rewrite run_callbacks_turn. cbn [Live.hooks Live.hooked]. rewrite lookup_insert_eq.
    reflexivity.
Qed.

Example live_run_of_three :
  option_map fst (Live.runHook Live.trio 4 "x" (VNum 1) (Live.hooked [0; 1; 2]))
  = Some (Normal (VNum 2))
  /\ option_map (fun r => Live.console (snd r))
                (Live.runHook Live.trio 4 "x" (VNum 1) (Live.hooked [0; 1; 2]))
     = Some [hook_failure "x" (Error "bad")]
  /\ option_map (fun r => Live.history (snd r))
                (Live.runHook Live.trio 4 "x" (VNum 1) (Live.hooked [0; 1; 2]))
     = Some [HookRun "x" (VNum 1); CallbackCalled "x" (VNum 1);
             CallbackCalled "x" (VNum 2); CallbackCalled "x" (VNum 2)].
Proof. repeat split; vm_compute; reflexivity. Qed.

(** The third of four plugins throws: [first] and [broken] are entered,
    [off] and [last] are not. *)
Lemma init_failure_is_fatal_witness :
  exists w2,
    init app staged = (Throw (Error "boom"), w2)
    /\ init_calls (history w2)
       = init_calls (history staged) ++ enabled_names staged_before ++ ["broken"]
    /\ hook_runs (history w2) = hook_runs (history staged)
    /\ callback_inputs (history w2) = callback_inputs (history staged)
    /\ initialized (this w2) = false
    /\ last (console w2) = Some (init_failure "broken" (Error "boom")).
Proof.
  apply (init_failure_is_fatal app staged staged_before "broken"
           (PluginData broken true no_metadata) staged_after (fails "boom")
           (snd (for_of staged_before (init_one app) (announced staged)))
           [] (Error "boom") ["/first"]);
    reflexivity.
Defined.

(** A second [init] after a first one that returned. *)
Lemma init_twice_is_noop_witness :
  init app (snd (init app ready)) = (Normal tt, warned (snd (init app ready))).
Proof.
  apply (proj1 (init_twice_is_noop pair app app ready (snd (init app ready)) eq_refl) []).
Defined.


(** A plugin registered after [init], then toggled, then [init] again. *)
Lemma late_plugin_is_never_initialized_witness :
  exists w1,
    register "late" bare (run_ops pair [OpDisable "first"] (snd (init app ready)))
    = (Normal (this w1), w1)
    /\ list_of (this w1)
       = list_of (this (run_ops pair [OpDisable "first"] (snd (init app ready))))
           ++ [Listed "late" true (default no_metadata (plugin_metadata bare))]
    /\ forall after app',
         init_calls (history (run_ops pair after w1))
         = init_calls (history (snd (init app ready)))
         /\ initialized (this (run_ops pair after w1)) = true
         /\ init app' (run_ops pair after w1)
            = (Normal tt, warned (run_ops pair after w1)).
Proof.
  apply (late_plugin_is_never_initialized pair app ready (snd (init app ready))
           [OpDisable "first"] "late" bare);
    reflexivity.
Defined.

(** A path with nothing at it, and a directory with a module that cannot
    be loaded before a good one. *)
Lemma loadFromDirectory_tolerates_failures_witness :
  (loadFromDirectory mixed "/srv/app/nowhere" start
   = (Normal tt, missing "/srv/app/nowhere" start)
   /\ this (missing "/srv/app/nowhere" start) = this start)
  /\ exists w',
       loadFromDirectory mixed "/srv/app/plugins" start = (Normal tt, w')
       /\ w' = fold_left (fun w file => snd (attempt mixed file w))
                         (files_of mixed "/srv/app/plugins" ["broken.js"; "good.js"; "notes.txt"])
                         (scanning mixed "/srv/app/plugins"
                                   ["broken.js"; "good.js"; "notes.txt"] start)
       /\ forall file,
            In file (files_of mixed "/srv/app/plugins" ["broken.js"; "good.js"; "notes.txt"]) ->
            (exists p, require mixed file = Normal p
                       /\ has (plugins (this w')) (name_for p file) = true)
            \/ (exists text, In (load_failure file text) (console w')).
Proof.
  split.
  - apply (proj1 (loadFromDirectory_tolerates_failures mixed "/srv/app/nowhere" start)).
    reflexivity.
  - apply (proj2 (loadFromDirectory_tolerates_failures mixed "/srv/app/plugins" start)
                 ["broken.js"; "good.js"; "notes.txt"]); [reflexivity|reflexivity|].
    intros file [<-|[<-|[]]] e He; vm_compute in He.
    + injection He as <-. eexists. reflexivity.
    + discriminate He.
Defined.

(** C7, as stated. A path at which a file exists is not a directory, yet
    [loadFromDirectory] prints no warning there and does not return: the
    guard tests that something exists, and the error of [readdirSync]
    leaves the method. *)
Lemma loadFromDirectory_rejects_on_a_file :
  (forall listing, readdirSync mixed "/srv/app/plugins/good.js" <> Normal listing)
  /\ loadFromDirectory mixed "/srv/app/plugins/good.js" start
     = (Throw (Error "ENOTDIR: not a directory, scandir '/srv/app/plugins/good.js'"), start).
Proof. split; [intros listing; vm_compute; discriminate | vm_compute; reflexivity]. Qed.

(** A module that throws [null]: the [catch] clause of the loop reads
    [error.message], which throws in its turn; [loadFromDirectory] is left
    with that [TypeError] and [good.js] is never loaded. *)
Example thrown_null_ends_the_scan :
  fst (loadFromDirectory nulled "/srv/app/plugins" start)
  = Throw (Error "Cannot read properties of null (reading 'message')")
  /\ list_of (this (snd (loadFromDirectory nulled "/srv/app/plugins" start))) = []
  /\ map l_name (list_of (this (snd (loadFromDirectory mixed "/srv/app/plugins" start))))
     = ["good"].
Proof. repeat split; vm_compute; reflexivity. Qed.

(** What the runs above leave behind. *)
Example register_rejects :
  fst (register "a" bare (snd (register "a" first start)))
  = Throw (Error ("Plugin " ++ dq ++ "a" ++ dq ++ " is already registered"))
  /\ option_map instance (get (plugins (this (snd (register "a" bare (snd (register "a" first start))))))
                              "a")
     = Some first
  /\ fst (register "h" hollow start)
     = Throw (Error ("Plugin " ++ dq ++ "h" ++ dq ++ " must have an init() method")).
Proof. repeat split; vm_compute; reflexivity. Qed.

Example load_prefers_metadata_name :
  fst (load labelled "plugins/x.js" start) = Normal "cors"
  /\ fst (load pair "/srv/app/plugins/a.js" start) = Normal "a".
Proof. split; vm_compute; reflexivity. Qed.

Example mixed_directory_loads_good :
  map l_name (list_of (this (snd (loadFromDirectory mixed "/srv/app/plugins" start)))) = ["good"]
  /\ map c_level (console (snd (loadFromDirectory mixed "/srv/app/plugins" start)))
     = [LLog; LError; LError; LLog].
Proof. split; vm_compute; reflexivity. Qed.

Example failed_init_keeps_side_effects :
  middleware (this (snd (init app staged))) = [1]
  /\ outside (snd (init app staged)) = ["/first"]
  /\ middleware (this (snd (init app (snd (init app staged))))) = [1; 1]
  /\ outside (snd (init app (snd (init app staged)))) = ["/first"; "/first"]
  /\ init_calls (history (snd (init app (snd (init app staged)))))
     = ["first"; "broken"; "first"; "broken"].
Proof. repeat split; vm_compute; reflexivity. Qed.

Example retry_after_disabling_the_culprit :
  let w1 := snd (init app staged) in
  let w2 := snd (init app (snd (disable "broken" w1))) in
  fst (init app (snd (disable "broken" w1))) = Normal tt
  /\ init_calls (history w2) = ["first"; "broken"; "first"; "last"]
  /\ hook_runs (history w2) = ["plugins:initialized"]
  /\ middleware (this w2) = [1; 1; 4].
Proof. repeat split; vm_compute; reflexivity. Qed.

Example throwing_callback_is_passed_over :
  fst (runHook "x" (VNum 1)
         (with_callbacks start "x" [returns (VNum 2); throws "bad"; returns VUndefined]))
  = Normal (VNum 2)
  /\ callback_inputs
       (history (snd (runHook "x" (VNum 1)
          (with_callbacks start "x" [returns (VNum 2); throws "bad"; returns VUndefined]))))
     = [VNum 1; VNum 2; VNum 2].
Proof. split; vm_compute; reflexivity. Qed.

End Runs.

(** ** Every method moves the manager by the five assignments *)

Section Moves.

Context {ext : Type}.
Variable R : PluginManager ext -> PluginManager ext -> Prop.
Context `{!PreOrder R}.

Lemma moves_ret {A} (a : A) : moves_by R (ret a).
Proof. intros w. reflexivity. Qed.

Lemma moves_throw {A} e : moves_by R (@throw ext A e).
Proof. intros w. reflexivity. Qed.

Lemma moves_lift {A} (c : completion A) : moves_by R (lift c).
Proof. intros w. reflexivity. Qed.

Lemma moves_print l text e : moves_by R (@print ext l text e).
Proof. intros w. reflexivity. Qed.

Lemma moves_record c : moves_by R (@record ext c).
Proof. intros w. reflexivity. Qed.

Lemma moves_bind {A B} (c : M ext A) (k : A -> M ext B) :
  moves_by R c -> (forall a, moves_by R (k a)) -> moves_by R (bind c k).
Proof.
  intros Hc Hk w. unfold bind. specialize (Hc w).
  destruct (c w) as [[a|e] w']; cbn [snd] in *; [|assumption].
  etransitivity; [exact Hc|apply Hk].
Qed.

Lemma moves_try_catch {A} (c : M ext A) handler :
  moves_by R c -> (forall e, moves_by R (handler e)) -> moves_by R (try_catch c handler).
Proof.
  intros Hc Hh w. unfold try_catch. specialize (Hc w).
  destruct (c w) as [[a|e] w']; cbn [snd] in *; [assumption|].
  etransitivity; [exact Hc|apply Hh].
Qed.

Lemma moves_for_of {A} (xs : list A) body :
  (forall x, moves_by R (body x)) -> moves_by R (for_of xs body).
Proof.
  intros Hb. induction xs as [|x xs IH]; cbn [for_of].
  - apply moves_ret.
  - apply moves_bind; auto.
Qed.

End Moves.

Section Steps.

Context {ext : Type}.
Variable host : Host ext.

Lemma registerHook_unfold hookName (cb : callback ext) (w : world ext) :
  registerHook hookName cb w
  = (Normal tt,
     World (Manager (plugins (this w))
                    (<[hookName := default [] (hooks (this w) !! hookName) ++ [cb]]>
                       (hooks (this w)))
                    (middleware (this w)) (initialized (this w)))
           (console w) (history w) (outside w)).
Proof.
  unfold registerHook, bind, get_this, set_this. cbn [this console history outside].
  destruct (hooks (this w) !! hookName) as [cbs|] eqn:Hl; cbn [plugins hooks middleware initialized].
  - now rewrite Hl.
  - now rewrite lookup_insert_eq, insert_insert_eq.
Qed.

Lemma toggle_unfold b name (w : world ext) :
  toggle b name w
  = match get (plugins (this w)) name with
    | None => (Throw (not_found name), w)
    | Some _ =>
        (Normal tt,
         World (Manager (set_enabled (plugins (this w)) name b) (hooks (this w))
                        (middleware (this w)) (initialized (this w)))
               (console w) (history w) (outside w))
    end.
Proof.
  unfold toggle, enable, disable, bind, get_this, set_this, throw, not_found.
  destruct b; cbn [this]; destruct (get (plugins (this w)) name); reflexivity.
Qed.

Lemma register_steps name (p : plugin ext) : moves_by (rtc step) (register name p).
Proof.
  intros w. rewrite register_unfold.
  destruct (has (plugins (this w)) name) eqn:Hhas; [reflexivity|].
  destruct (lacks_init p) eqn:Hp; [reflexivity|].
  apply rtc_once. unfold registered. cbn [snd this].
  rewrite set_fresh by assumption. now apply step_register.
Qed.

Lemma toggle_steps b name : moves_by (rtc step) (@toggle ext b name).
Proof.
  intros w. rewrite toggle_unfold.
  destruct (get (plugins (this w)) name) as [d|] eqn:Hg; [|reflexivity].
  apply rtc_once. cbn [snd this]. now apply (step_toggle _ _ _ d).
Qed.

Lemma addMiddleware_steps mw : moves_by (rtc step) (@addMiddleware ext mw).
Proof. intros w. apply rtc_once. cbn. apply step_middleware. Qed.

Lemma registerHook_steps hookName (cb : callback ext) :
  moves_by (rtc step) (registerHook hookName cb).
Proof. intros w. rewrite registerHook_unfold. apply rtc_once. cbn. apply step_hook. Qed.

Lemma init_one_steps app (entry : string * pluginData ext) :
  moves_by (rtc step) (init_one app entry).
Proof.
  destruct entry as [name d]. unfold init_one, console_log, console_error.
  destruct (enabled d); cbn [negb]; [|apply (moves_print (rtc step))].
  apply (moves_try_catch (rtc step));
    [|intros e; apply (moves_bind (rtc step));
      [apply (moves_print (rtc step))|intros _; apply (moves_throw (rtc step))]].
  apply (moves_bind (rtc step)); [|intros _; apply (moves_print (rtc step))].
  unfold call_init.
  destruct (plugin_init (instance d)) as [|v|f]; try apply (moves_throw (rtc step)).
  apply (moves_bind (rtc step)); [apply (moves_record (rtc step))|intros _].
  apply (moves_bind (rtc step)); [|intros r].
  - intros w. unfold enter_init. destruct (f app (outside w)). reflexivity.
  - apply (moves_bind (rtc step)); [|intros _].
    + apply (moves_for_of (rtc step)). intros [mw|hookName cb].
      * apply addMiddleware_steps.
      * apply registerHook_steps.
    + destruct (snd r); [apply (moves_ret (rtc step))|apply (moves_throw (rtc step))].
Qed.

Lemma init_steps app : moves_by (rtc step) (@init ext app).
Proof.
  intros w. destruct (initialized (this w)) eqn:Hi.
  - rewrite init_again by assumption. reflexivity.
  - rewrite init_first by assumption.
    pose proof (moves_for_of (rtc step) (plugins (this w)) (init_one app)
                             (init_one_steps app) (announced w)) as Hloop.
    destruct (for_of _ _ (announced w)) as [[[]|e] w1]; cbn [snd] in *; [|exact Hloop].
    rewrite runHook_this. etransitivity; [exact Hloop|].
    apply rtc_once. apply step_initialized.
Qed.

Lemma load_steps pluginPath : moves_by (rtc step) (load host pluginPath).
Proof.
  intros w. rewrite load_unfold. cbv zeta.
  destruct (require host pluginPath) as [p|e]; [|reflexivity].
  pose proof (register_steps (name_for p pluginPath) p w) as Hr.
  destruct (register _ p w) as [[s|e] w']; exact Hr.
Qed.

Lemma loadFromDirectory_steps pluginsDir :
  moves_by (rtc step) (loadFromDirectory host pluginsDir).
Proof.
  intros w. destruct (existsSync host pluginsDir) eqn:He.
  - destruct (readdirSync host pluginsDir) as [listing|e] eqn:Hl.
    + rewrite (loadFromDirectory_unfold host pluginsDir listing) by assumption.
      cbn [snd]. change (this w) with (this (scanning host pluginsDir listing w)).
      generalize (scanning host pluginsDir listing w) as w0.
      induction (map _ _) as [|file files IH]; intros w0; [reflexivity|].
      rewrite attempts_cons.
      assert (H1 : rtc step (this w0) (this (snd (attempt host file w0)))).
      { unfold attempt. pose proof (load_steps file w0) as Hl0.
        destruct (load host file w0) as [[name|e] w']; [exact Hl0|].
        destruct (message e); exact Hl0. }
      destruct (fst (attempt host file w0)); [|exact H1].
      etransitivity; [exact H1|apply IH].
    + unfold loadFromDirectory. rewrite He, Hl. reflexivity.
  - rewrite loadFromDirectory_missing by assumption. reflexivity.
Qed.

(** Every call of a public method is a sequence of the five
    assignments. *)
Lemma exec_steps (o : op) (w : world ext) : rtc step (this w) (this (exec host o w)).
Proof.
  destruct o; cbn [exec].
  - apply register_steps.
  - apply init_steps.
  - apply registerHook_steps.
  - rewrite runHook_this. reflexivity.
  - apply addMiddleware_steps.
  - reflexivity.
  - apply (toggle_steps true).
  - apply (toggle_steps false).
  - reflexivity.
  - reflexivity.
  - apply load_steps.
  - apply loadFromDirectory_steps.
Qed.

Lemma run_ops_steps (ops : list op) (w : world ext) :
  rtc step (this w) (this (run_ops host ops w)).
Proof.
  revert w. unfold run_ops. induction ops as [|o ops IH]; intros w; cbn [fold_left].
  - reflexivity.
  - etransitivity; [apply exec_steps|apply IH].
Qed.

End Steps.

(** ** What the registry keeps *)

Section Registry.

Context {ext : Type}.
Variable host : Host ext.

Lemma has_false_not_in (ps : list (string * pluginData ext)) name :
  has ps name = false -> name ∉ map fst ps.
Proof.
  unfold has. induction ps as [|[k d] ps IH]; cbn; intros H.
  - apply not_elem_of_nil.
  - destruct (String.eqb k name) eqn:Hk; [discriminate|].
    apply String.eqb_neq in Hk. rewrite not_elem_of_cons.
    split; [intros Heq; apply Hk; now rewrite Heq|auto].
Qed.

Lemma get_elem_of (ps : list (string * pluginData ext)) name d :
  get ps name = Some d -> (name, d) ∈ ps.
Proof.
  induction ps as [|[k x] ps IH]; cbn; [discriminate|].
  destruct (String.eqb k name) eqn:Hk.
  - apply String.eqb_eq in Hk. intros [= ->]. subst. apply list_elem_of_here.
  - intros H. apply list_elem_of_further. auto.
Qed.

Lemma set_enabled_names (ps : list (string * pluginData ext)) name b :
  map fst (set_enabled ps name b) = map fst ps.
Proof.
  induction ps as [|[k d] ps IH]; cbn; [reflexivity|].
  destruct (String.eqb k name); cbn; congruence.
Qed.

Lemma set_enabled_identities (ps : list (string * pluginData ext)) name b :
  map identity_of (set_enabled ps name b) = map identity_of ps.
Proof.
  induction ps as [|[k d] ps IH]; cbn; [reflexivity|].
  destruct (String.eqb k name); cbn; [reflexivity|now rewrite IH].
Qed.

Lemma set_enabled_callable (ps : list (string * pluginData ext)) name b :
  Forall (fun entry => lacks_init (instance (snd entry)) = false) ps ->
  Forall (fun entry => lacks_init (instance (snd entry)) = false) (set_enabled ps name b).
Proof.
  induction 1 as [|[k d] ps Hd Hps IH]; cbn; [constructor|].
  destruct (String.eqb k name); constructor; auto.
Qed.

Lemma step_sound (s s' : PluginManager ext) : step s s' -> sound s -> sound s'.
Proof.
  intros Hstep [Hnd Hall]. destruct Hstep as [s name p Hfresh Hp|s name b d Hg|s mw|s hookName cb|s];
    unfold sound; cbn [plugins]; try (split; assumption).
  - split.
    + rewrite map_app. cbn. apply NoDup_app. split; [assumption|]. split.
      * intros x Hx Hx'. apply list_elem_of_singleton in Hx'. subst.
        now apply (has_false_not_in _ _ Hfresh).
      * apply NoDup_singleton.
    + apply Forall_app. split; [assumption|]. constructor; [exact Hp|constructor].
  - split; [now rewrite set_enabled_names|now apply set_enabled_callable].
Qed.

Lemma steps_sound (s s' : PluginManager ext) : rtc step s s' -> sound s -> sound s'.
Proof. induction 1; eauto using step_sound. Qed.

(** X1. From a new manager on, whatever public methods are called, the
    names in the map stay distinct and every record in it holds a module
    whose [init] is a function: nothing [init] will call is missing. *)
Theorem registry_stays_sound (ops : list op) (w : world ext) :
  sound (this w) ->
  NoDup (map l_name (list_of (this (run_ops host ops w))))
  /\ forall name d,
       get (plugins (this (run_ops host ops w))) name = Some d ->
       exists f, plugin_init (instance d) = InitFunction f.
Proof.
  intros Hs. apply (steps_sound _ _ (run_ops_steps host ops w)) in Hs.
  destruct Hs as [Hnd Hall]. split.
  - unfold list_of. rewrite map_map.
    erewrite map_ext; [exact Hnd|]. now intros [name d].
  - intros name d Hg. apply get_elem_of in Hg.
    rewrite Forall_forall in Hall. specialize (Hall _ Hg). cbn in Hall.
    unfold lacks_init in Hall. destruct (plugin_init (instance d)); try discriminate. eauto.
Qed.

Instance extends_preorder : PreOrder (@extends ext).
Proof.
  split.
  - intros s. repeat split; auto; reflexivity.
  - intros s1 s2 s3 (H1 & H2 & H3 & H4) (H1' & H2' & H3' & H4').
    repeat split; auto; try (etransitivity; eauto).
Qed.

Lemma step_extends (s s' : PluginManager ext) : step s s' -> extends s s'.
Proof.
  intros [s0 name p Hfresh Hp|s0 name b d Hg|s0 mw|s0 hookName cb|s0];
    unfold extends; cbn [plugins hooks middleware initialized];
    repeat split; auto; try reflexivity.
  - rewrite map_app. now apply prefix_app_r.
  - now rewrite set_enabled_identities.
  - now apply prefix_app_r.
  - intros n. destruct (decide (hookName = n)) as [<-|Hn].
    + rewrite lookup_insert_eq. cbn [default]. now apply prefix_app_r.
    + now rewrite lookup_insert_ne.
Qed.

Lemma steps_extend (s s' : PluginManager ext) : rtc step s s' -> extends s s'.
Proof.
  induction 1 as [|s1 s2 s3 H12 _ IH]; [reflexivity|].
  transitivity s2; [apply step_extends, H12|exact IH].
Qed.

(** X2. No method takes anything back. After any sequence of calls the
    plugins registered before are still there, in the same order and with
    the same module and metadata (only [enabled] may differ), new ones
    come after them; the same holds for the callbacks of every hook and
    for the middleware; and an initialized manager stays initialized. *)
Theorem nothing_is_ever_removed (ops : list op) (w : world ext) :
  map identity_of (plugins (this w))
    `prefix_of` map identity_of (plugins (this (run_ops host ops w)))
  /\ (forall hookName,
        default [] (hooks (this w) !! hookName)
          `prefix_of` default [] (hooks (this (run_ops host ops w)) !! hookName))
  /\ middleware (this w) `prefix_of` middleware (this (run_ops host ops w))
  /\ (initialized (this w) = true -> initialized (this (run_ops host ops w)) = true).
Proof. apply (steps_extend _ _ (run_ops_steps host ops w)). Qed.

End Registry.

(** ** enable and disable *)

Section Toggles.

Context {ext : Type}.

Lemma get_set_enabled_same (ps : list (string * pluginData ext)) name b :
  get (set_enabled ps name b) name
  = option_map (fun d => PluginData (instance d) b (metadata_of d)) (get ps name).
Proof.
  induction ps as [|[k d] ps IH]; cbn; [reflexivity|].
  destruct (String.eqb k name) eqn:Hk; cbn; rewrite Hk; [reflexivity|exact IH].
Qed.

Lemma get_set_enabled_other (ps : list (string * pluginData ext)) name b other :
  other <> name -> get (set_enabled ps name b) other = get ps other.
Proof.
  intros Hne. induction ps as [|[k d] ps IH]; cbn; [reflexivity|].
  destruct (String.eqb k name) eqn:Hk; cbn.
  - apply String.eqb_eq in Hk. subst k.
    destruct (String.eqb name other) eqn:Ho; [|reflexivity].
    apply String.eqb_eq in Ho. congruence.
  - destruct (String.eqb k other); [reflexivity|exact IH].
Qed.

Lemma list_of_names (s : PluginManager ext) : map l_name (list_of s) = map fst (plugins s).
Proof.
  unfold list_of. induction (plugins s) as [|[n d] ps IH]; cbn; [reflexivity|].
  now rewrite IH.
Qed.

Lemma toggle_flips b name (w : world ext) : flips b name w (toggle b name w).
Proof.
  rewrite toggle_unfold. unfold flips.
  destruct (get (plugins (this w)) name) as [d|] eqn:Hg; [|auto].
  cbn [this plugins hooks middleware initialized console history outside].
  split; [|split; [|split]].
  - exists d. split; [reflexivity|]. now rewrite get_set_enabled_same, Hg.
  - intros other Hne. now apply get_set_enabled_other.
  - rewrite !list_of_names. cbn [plugins]. apply set_enabled_names.
  - repeat split; reflexivity.
Qed.

(** X3. [enable] and [disable] throw on a name that was never registered
    and then change nothing. Otherwise they return, and the record under
    the name has its flag set and its module and metadata as they were;
    every other record, the order of [list()], the hooks, the middleware
    and everything outside the map are untouched. *)
Theorem enable_disable_outcome name (w : world ext) :
  flips true name w (enable name w) /\ flips false name w (disable name w).
Proof. split; [apply (toggle_flips true)|apply (toggle_flips false)]. Qed.

End Toggles.

Section ToggleAndInit.

Context {ext : Type}.

Lemma set_enabled_twice (ps : list (string * pluginData ext)) name b b' :
  set_enabled (set_enabled ps name b') name b = set_enabled ps name b.
Proof.
  induction ps as [|[k d] ps IH]; cbn; [reflexivity|].
  destruct (String.eqb k name) eqn:Hk; cbn; rewrite Hk; [reflexivity|now rewrite IH].
Qed.

Lemma set_enabled_same (ps : list (string * pluginData ext)) name d :
  get ps name = Some d -> set_enabled ps name (enabled d) = ps.
Proof.
  induction ps as [|[k x] ps IH]; cbn; [reflexivity|].
  destruct (String.eqb k name).
  - intros [= ->]. now destruct d.
  - intros Hg. now rewrite IH.
Qed.

Lemma get_set_enabled_some (ps : list (string * pluginData ext)) name b :
  is_Some (get (set_enabled ps name b) name) <-> is_Some (get ps name).
Proof.
  rewrite get_set_enabled_same. destruct (get ps name); cbn; split; intros [x Hx]; eauto;
    discriminate.
Qed.

(** X4. [disable] followed by [enable] of the same name leaves the
    manager as [enable] alone does; for a plugin that was enabled, the
    manager is back to what it was. *)
Theorem disable_then_enable name (w : world ext) :
  this (snd (enable name (snd (disable name w)))) = this (snd (enable name w))
  /\ forall d, get (plugins (this w)) name = Some d -> enabled d = true ->
       this (snd (enable name (snd (disable name w)))) = this w.
Proof.
  change (enable name) with (@toggle ext true name).
  change (disable name) with (@toggle ext false name).
  assert (Henable : forall d, get (plugins (this w)) name = Some d -> enabled d = true ->
                              this (snd (toggle true name w)) = this w).
  { intros d Hg He. rewrite toggle_unfold, Hg. cbn [snd this].
    rewrite <- He, (set_enabled_same _ _ _ Hg). now destruct (this w). }
  assert (Hboth : this (snd (toggle true name (snd (toggle false name w))))
                  = this (snd (toggle true name w))).
  { rewrite (toggle_unfold false).
    destruct (get (plugins (this w)) name) as [d|] eqn:Hg; [|reflexivity].
    cbn [snd]. rewrite !toggle_unfold. cbn [this plugins].
    rewrite get_set_enabled_same, Hg. cbn [option_map snd this hooks middleware initialized].
    now rewrite set_enabled_twice. }
  split; [exact Hboth|]. intros d Hg He. rewrite Hboth. eauto.
Qed.


Lemma thread_app (cbs : list (callback ext)) cb data o :
  thread (cbs ++ [cb]) data o
  = let '(v, inputs, o') := thread cbs data o in
    (next_input v (fst (cb v o')), inputs ++ [v], snd (cb v o')).
Proof.
  revert data o. induction cbs as [|cb0 cbs IH]; intros data o; cbn.
  - now destruct (cb data o).
  - destruct (cb0 data o) as [c o']. rewrite IH.
    now destruct (thread cbs (next_input data c) o') as [[v inputs] o''].
Qed.

(** X7. A callback registered on a hook runs after the ones that were
    there: it is called on the value the chain gave before, and what
    [runHook] returns is that value unless the new callback returns
    another. The chains of the other hooks give what they gave. *)
Theorem new_callback_runs_last hookName (cb : callback ext) data (w w' : world ext) v :
  runHook hookName data w = (Normal v, w') ->
  fst (runHook hookName data (snd (registerHook hookName cb w)))
  = Normal (next_input v (fst (cb v (outside w'))))
  /\ forall other, other <> hookName ->
       fst (runHook other data (snd (registerHook hookName cb w)))
       = fst (runHook other data w).
Proof.
  intros Hrun. rewrite runHook_thread in Hrun. cbv zeta in Hrun.
  injection Hrun as Hv Hw. split.
  - rewrite runHook_thread, registerHook_unfold. cbv zeta. cbn [snd this hooks outside fst].
    rewrite lookup_insert_eq. cbn [default from_option id]. rewrite thread_app.
    rewrite <- Hw, <- Hv. cbn [outside].
    now destruct (thread _ data (outside w)) as [[v0 inputs] o'].
  - intros other Hne. rewrite !runHook_thread, registerHook_unfold. cbv zeta.
    cbn [snd this hooks outside fst]. now rewrite lookup_insert_ne by congruence.
Qed.

End ToggleAndInit.

(** ** More on the loader *)

Section LoaderMore.

Context {ext : Type}.
Variable host : Host ext.

(** X8. [load] returns the name it registered the module under: the
    name was free, the module has a callable [init], and its enabled
    record is now the last of the map. [load] throws when [require] or
    [register] throws, with the error they threw, not a new one; it has
    then printed that error and left the manager as it was. *)
Theorem load_outcome pluginPath (w : world ext) :
  match load host pluginPath w with
  | (Normal name, w') =>
      exists p,
        require host pluginPath = Normal p
        /\ name = name_for p pluginPath
        /\ has (plugins (this w)) name = false
        /\ lacks_init p = false
        /\ plugins (this w')
           = plugins (this w)
               ++ [(name, PluginData p true (default no_metadata (plugin_metadata p)))]
  | (Throw e, w') =>
      this w' = this w
      /\ console w' = console w ++ [load_error pluginPath e]
      /\ (require host pluginPath = Throw e
          \/ exists p, require host pluginPath = Normal p
                       /\ fst (register (name_for p pluginPath) p w) = Throw e)
  end.
Proof.
  rewrite load_unfold. cbv zeta.
  destruct (require host pluginPath) as [p|e] eqn:Hreq.
  - rewrite register_unfold.
    destruct (has (plugins (this w)) (name_for p pluginPath)) eqn:Hhas.
    + cbn [this console]. repeat split; auto. right. exists p.
      split; [reflexivity|]. now rewrite register_unfold, Hhas.
    + destruct (lacks_init p) eqn:Hp.
      * cbn [this console]. repeat split; auto. right. exists p.
        split; [reflexivity|]. now rewrite register_unfold, Hhas, Hp.
      * exists p. unfold registered. cbn [this plugins].
        rewrite set_fresh by assumption. repeat split; auto.
  - cbn. repeat split; auto.
Qed.

(** X9. Loading a file a second time throws: the name the first [load]
    returned is taken. The record of the first load stays, and the
    manager is what the first load left. *)
Theorem load_twice pluginPath name (w w1 : world ext) :
  load host pluginPath w = (Normal name, w1) ->
  exists w2,
    load host pluginPath w1 = (Throw (already_registered name), w2)
    /\ this w2 = this w1
    /\ has (plugins (this w2)) name = true.
Proof.
  rewrite !load_unfold. cbv zeta.
  destruct (require host pluginPath) as [p|e]; [|discriminate].
  rewrite (register_unfold _ p w).
  destruct (has (plugins (this w)) (name_for p pluginPath)) eqn:Hhas; [discriminate|].
  destruct (lacks_init p) eqn:Hp; [discriminate|].
  intros [= <- <-]. rewrite register_unfold.
  assert (Hnow : has (plugins (this (registered (name_for p pluginPath) p w)))
                     (name_for p pluginPath) = true).
  { unfold registered. cbn [this plugins]. apply has_set_same. }
  rewrite Hnow. eexists. split; [reflexivity|]. cbn [this]. split; [reflexivity|exact Hnow].
Qed.

Lemma attempt_spent_this file (w : world ext) :
  spent host file (this w) -> this (snd (attempt host file w)) = this w.
Proof.
  unfold spent. rewrite attempt_unfold. cbv zeta.
  destruct (require host file) as [p|e]; [|destruct (message e); reflexivity].
  intros [Hp|Hhas].
  - destruct (has (plugins (this w)) (name_for p file)); [reflexivity|].
    now rewrite Hp.
  - now rewrite Hhas.
Qed.

Lemma attempt_spends file (w : world ext) :
  spent host file (this (snd (attempt host file w))).
Proof.
  unfold spent. rewrite attempt_unfold. cbv zeta.
  destruct (require host file) as [p|e0]; [|exact I].
  destruct (has (plugins (this w)) (name_for p file)) eqn:Hhas; [now right|].
  destruct (lacks_init p) eqn:Hl; [now left|].
  right. rewrite register_unfold, Hhas, Hl. cbn. apply has_set_same.
Qed.

Lemma attempt_keeps_spent file other (w : world ext) :
  spent host other (this w) -> spent host other (this (snd (attempt host file w))).
Proof.
  unfold spent. destruct (require host other) as [p|e]; [|auto].
  intros [Hp|Hhas]; [now left|right]. now apply attempt_has.
Qed.

Lemma attempts_keep_spent files other (w : world ext) :
  spent host other (this w) ->
  spent host other (this (snd (attempts host files w))).
Proof.
  revert w. induction files as [|file files IH]; intros w Hs; [exact Hs|].
  rewrite attempts_cons. pose proof (attempt_keeps_spent file other w Hs) as H1.
  destruct (fst (attempt host file w)); [now apply IH|exact H1].
Qed.

(** Whether the body of the loop returns or throws for a file does not
    depend on the manager. *)
Lemma attempt_verdict file (w w' : world ext) :
  fst (attempt host file w) = fst (attempt host file w').
Proof.
  rewrite !attempt_unfold. cbv zeta.
  destruct (require host file) as [p|e]; [|destruct (message e); reflexivity].
  destruct (has (plugins (this w)) (name_for p file)), (has (plugins (this w')) (name_for p file));
    destruct (lacks_init p); reflexivity.
Qed.

(** A second pass over the files, from the manager the first pass left,
    changes nothing and ends where the first ended. *)
Lemma attempts_again files (w w2 : world ext) :
  this w2 = this (snd (attempts host files w)) ->
  this (snd (attempts host files w2)) = this w2.
Proof.
  revert w w2. induction files as [|file files IH]; intros w w2 Hw; [reflexivity|].
  rewrite attempts_cons in Hw. rewrite attempts_cons.
  rewrite (attempt_verdict file w2 w).
  assert (Hs : spent host file (this w2)).
  { rewrite Hw. destruct (fst (attempt host file w)).
    - apply attempts_keep_spent, attempt_spends.
    - apply attempt_spends. }
  pose proof (attempt_spent_this file w2 Hs) as Ht.
  destruct (fst (attempt host file w)); [|exact Ht].
  rewrite (IH (snd (attempt host file w)) (snd (attempt host file w2))); [exact Ht|].
  now rewrite Ht.
Qed.

(** X10. Scanning a directory a second time adds nothing: the files are
    attempted again, but each fails as before or finds its name taken,
    and the manager is what the first scan left. *)
Theorem loadFromDirectory_twice pluginsDir (w : world ext) :
  this (snd (loadFromDirectory host pluginsDir (snd (loadFromDirectory host pluginsDir w))))
  = this (snd (loadFromDirectory host pluginsDir w)).
Proof.
  destruct (existsSync host pluginsDir) eqn:He.
  - destruct (readdirSync host pluginsDir) as [listing|e] eqn:Hl.
    + rewrite (loadFromDirectory_unfold host pluginsDir listing w) by assumption.
      rewrite (loadFromDirectory_unfold host pluginsDir listing) by assumption.
      set (files := map _ _).
      set (w1 := snd (attempts host files (scanning host pluginsDir listing w))).
      apply (attempts_again files (scanning host pluginsDir listing w)
                            (scanning host pluginsDir listing w1)).
      reflexivity.
    + assert (Hthrow : forall w0 : world ext,
                loadFromDirectory host pluginsDir w0 = (Throw e, w0)).
      { intros w0. unfold loadFromDirectory. now rewrite He, Hl. }
      now rewrite !Hthrow.
  - now rewrite !loadFromDirectory_missing.
Qed.

End LoaderMore.

(** ** The default name of a plugin *)

Section DefaultName.

Context {ext : Type}.

Lemma split_nonempty sep s : Js.split sep s <> [].
Proof.
  destruct s as [|c s]; cbn; [discriminate|].
  destruct (Ascii.eqb c sep); [discriminate|].
  destruct (Js.split sep s); discriminate.
Qed.

Lemma split_without sep s : Text.has_char sep s = false -> Js.split sep s = [s].
Proof.
  induction s as [|c s IH]; cbn; [reflexivity|].
  destruct (Ascii.eqb c sep); cbn; [discriminate|].
  intros Hs. now rewrite IH.
Qed.

Lemma append_empty (b : string) : (EmptyString ++ b)%string = b.
Proof. reflexivity. Qed.

Lemma append_cons c (a b : string) : (String c a ++ b)%string = String c (a ++ b).
Proof. reflexivity. Qed.

Lemma split_two sep a b : exists seg seg' segs, Js.split sep (a ++ String sep b) = seg :: seg' :: segs.
Proof.
  induction a as [|c a (seg & seg' & segs & IH)].
  - rewrite append_empty. cbn [Js.split]. rewrite Ascii.eqb_refl.
    destruct (Js.split sep b) as [|x xs] eqn:Hb.
    + now destruct (split_nonempty sep b).
    + eauto.
  - rewrite append_cons. cbn [Js.split]. destruct (Ascii.eqb c sep); rewrite IH; eauto.
Qed.

Lemma pop_cons x xs : xs <> [] -> Js.pop (x :: xs) = Js.pop xs.
Proof. destruct xs; [congruence|reflexivity]. Qed.

Lemma pop_split_after sep a b :
  Js.pop (Js.split sep (a ++ String sep b)) = Js.pop (Js.split sep b).
Proof.
  induction a as [|c a IH].
  - rewrite append_empty. cbn [Js.split]. rewrite Ascii.eqb_refl.
    apply pop_cons, split_nonempty.
  - rewrite append_cons. cbn [Js.split]. destruct (Ascii.eqb c sep).
    + rewrite pop_cons by apply split_nonempty. exact IH.
    + rewrite <- IH. destruct (split_two sep a b) as (seg & seg' & segs & ->).
      reflexivity.
Qed.

Lemma startsWith_js_after s :
  Js.startsWith "js" s = false -> Js.startsWith "js" (s ++ ".js") = false.
Proof.
  destruct s as [|c2 s2]; [reflexivity|]. rewrite append_cons. cbn [Js.startsWith].
  destruct (Ascii.eqb "j" c2); [|reflexivity].
  destruct s2 as [|c3 s3]; [reflexivity|]. rewrite append_cons. cbn [Js.startsWith].
  now destruct (Ascii.eqb "s" c3).
Qed.

Lemma replace_extension stem :
  Text.includes ".js" stem = false -> Js.replace ".js" EmptyString (stem ++ ".js") = stem.
Proof.
  induction stem as [|c s IH]; [reflexivity|].
  cbn [Text.includes]. intros Hin. apply orb_false_iff in Hin as [Hstart Hrest].
  rewrite append_cons. cbn [Js.replace].
  assert (Hnot : Js.startsWith ".js" (String c (s ++ ".js")) = false).
  { cbn [Js.startsWith] in *. destruct (Ascii.eqb "." c); [|reflexivity].
    now apply startsWith_js_after. }
  rewrite Hnot. now rewrite IH.
Qed.

(** X11. For a file in a directory whose name is a stem without [.js]
    in it followed by the extension [.js], the name [load] registers a
    module under is its [metadata.name] if it has one that is not empty,
    and the stem otherwise. *)
Theorem name_of_plain_file (p : plugin ext) dir stem :
  Text.has_char "/" stem = false ->
  Text.includes ".js" stem = false ->
  file_name (dir ++ "/" ++ stem ++ ".js") = stem
  /\ name_for p (dir ++ "/" ++ stem ++ ".js")
     = match metadata_name p with
       | Some n => if String.eqb n EmptyString then stem else n
       | None => stem
       end.
Proof.
  intros Hslash Hjs.
  assert (Hfile : file_name (dir ++ "/" ++ stem ++ ".js") = stem).
  { unfold file_name. change ("/" ++ stem ++ ".js")%string with (String "/" (stem ++ ".js")).
    rewrite pop_split_after, split_without.
    - cbn [Js.pop last]. now apply replace_extension.
    - clear Hjs. induction stem as [|c s IH]; [reflexivity|].
      rewrite append_cons. cbn [Text.has_char] in *.
      apply orb_false_iff in Hslash as [-> Hs]. cbn [orb]. auto. }
  split; [exact Hfile|]. unfold name_for. now rewrite Hfile.
Qed.

End DefaultName.

(** ** The rate limiter *)

Module RateLimiterFacts.

Import RateLimiter.
Local Open Scope Z_scope.

Lemma middleware_api cfg now req s :
  Js.startsWith "/api/" (path req) = true ->
  rateLimitMiddleware cfg now req s
  = let d := counted cfg now (s !! key_of req) in
    let h := Headers (maxRequests cfg) (Z.max 0 (maxRequests cfg - count d))
                     (resetTime d + windowMs cfg) in
    (if count d >? maxRequests cfg
     then TooMany h (message cfg) (ceil_div (resetTime d + windowMs cfg - now) 1000)
     else Next (Some h),
     <[key_of req := d]> s).
Proof.
  intros Hapi. unfold rateLimitMiddleware. rewrite Hapi. cbn [negb]. cbv zeta.
  now destruct (count _ >? maxRequests cfg).
Qed.

Lemma counted_fresh cfg now old : fresh cfg now old -> counted cfg now old = RequestData 1 now.
Proof.
  destruct old as [d|]; cbn; [|reflexivity]. intros Hd.
  destruct (Z.gtb_spec (now - resetTime d) (windowMs cfg)); [reflexivity|lia].
Qed.

Lemma counted_running cfg now c t0 :
  now - t0 <= windowMs cfg ->
  counted cfg now (Some (RequestData c t0)) = RequestData (c + 1) t0.
Proof.
  intros Hd. cbn. destruct (Z.gtb_spec (now - t0) (windowMs cfg)); [lia|reflexivity].
Qed.

(** Requests in a running window. *)
Lemma serve_running cfg req later : forall c t0 s,
  Js.startsWith "/api/" (path req) = true ->
  s !! key_of req = Some (RequestData c t0) ->
  Forall (fun t => t - t0 <= windowMs cfg) later ->
  map passed (fst (serve cfg req later s))
  = map (fun i => c + Z.of_nat i <? maxRequests cfg) (seq 0 (length later))
  /\ snd (serve cfg req later s) !! key_of req
     = Some (RequestData (c + Z.of_nat (length later)) t0).
Proof.
  induction later as [|t later IH]; intros c t0 s Hapi Hs Hall.
  - cbn. rewrite Z.add_0_r. auto.
  - apply Forall_cons in Hall as [Ht Hall]. cbn [serve].
    rewrite middleware_api by assumption. cbv zeta.
    rewrite Hs, counted_running by assumption. cbn [count resetTime].
    specialize (IH (c + 1) t0 (<[key_of req := RequestData (c + 1) t0]> s) Hapi
                   (lookup_insert_eq _ _ _) Hall).
    destruct (serve cfg req later _) as [rs s']. cbn [fst snd] in *.
    destruct IH as [IHr IHs]. split.
    + cbn [length seq map]. rewrite <- seq_shift, map_map, IHr. f_equal.
      * change (Z.of_nat 0) with 0. rewrite Z.add_0_r.
        destruct (Z.gtb_spec (c + 1) (maxRequests cfg)), (Z.ltb_spec c (maxRequests cfg));
          cbn; try reflexivity; lia.
      * apply map_ext. intros i. f_equal. lia.
    + rewrite IHs. f_equal. f_equal. cbn [length]. lia.
Qed.

(** X12. A client that starts a window and keeps asking within it is
    let through for its first [maxRequests] requests to the API and
    answered 429 from then on; every request, the refused ones too, is
    counted. *)
Theorem burst_is_cut_at_the_limit cfg req t0 later s :
  Js.startsWith "/api/" (path req) = true ->
  fresh cfg t0 (s !! key_of req) ->
  Forall (fun t => t - t0 <= windowMs cfg) later ->
  map passed (fst (serve cfg req (t0 :: later) s))
  = map (fun i => Z.of_nat i <? maxRequests cfg) (seq 0 (S (length later)))
  /\ snd (serve cfg req (t0 :: later) s) !! key_of req
     = Some (RequestData (Z.of_nat (S (length later))) t0).
Proof.
  intros Hapi Hfresh Hall. cbn [serve].
  rewrite middleware_api by assumption. cbv zeta.
  rewrite counted_fresh by assumption. cbn [count resetTime].
  destruct (serve_running cfg req later 1 t0 (<[key_of req := RequestData 1 t0]> s) Hapi
                          (lookup_insert_eq _ _ _) Hall) as [Hr Hs].
  destruct (serve cfg req later _) as [rs s']. cbn [fst snd] in *. split.
  - cbn [seq map]. rewrite <- seq_shift, map_map, Hr. f_equal.
    + change (Z.of_nat 0) with 0.
      destruct (Z.gtb_spec 1 (maxRequests cfg)), (Z.ltb_spec 0 (maxRequests cfg));
        cbn; try reflexivity; lia.
    + apply map_ext. intros i. f_equal. lia.
  - rewrite Hs. f_equal. f_equal. lia.
Qed.

Lemma ceil_div_mono a b : a <= b -> ceil_div a 1000 <= ceil_div b 1000.
Proof.
  intros Hab. unfold ceil_div.
  assert (- b / 1000 <= - a / 1000) by (apply Z.div_le_mono; lia). lia.
Qed.

Lemma ceil_div_nonneg a : 0 <= a -> 0 <= ceil_div a 1000.
Proof. intros Ha. change 0 with (ceil_div 0 1000) at 1. now apply ceil_div_mono. Qed.

(** X13. A request is refused only with nothing remaining: the answer
    carries the configured message, a remaining count of 0 and the number
    of seconds, rounded up, to the end of the window, which is never
    negative and, when the clock has not gone back behind the start of the
    window, at most the length of the window. *)
Theorem refusal_is_well_formed cfg now req s h err retry :
  0 <= windowMs cfg ->
  fst (rateLimitMiddleware cfg now req s) = TooMany h err retry ->
  remaining h = 0
  /\ limit h = maxRequests cfg
  /\ err = message cfg
  /\ retry = ceil_div (reset h - now) 1000
  /\ 0 <= retry
  /\ (reset h - windowMs cfg <= now -> retry <= ceil_div (windowMs cfg) 1000).
Proof.
  intros Hw. unfold rateLimitMiddleware.
  destruct (Js.startsWith "/api/" (path req)); cbn [negb]; [|discriminate]. cbv zeta.
  set (d := counted cfg now (s !! key_of req)).
  assert (Hd : resetTime d + windowMs cfg - now >= 0).
  { unfold d, counted. destruct (s !! key_of req) as [old|]; [|cbn; lia].
    destruct (Z.gtb_spec (now - resetTime old) (windowMs cfg)); cbn; lia. }
  destruct (Z.gtb_spec (count d) (maxRequests cfg)) as [Hc|Hc]; [|discriminate].
  cbn [fst]. intros [= <- <- <-]. cbn [remaining limit reset].
  repeat split; try reflexivity.
  - lia.
  - apply ceil_div_nonneg. lia.
  - intros Hclock. apply ceil_div_mono. lia.
Qed.

(** X14. Clients do not share a count: a request leaves the record of
    every other key as it was, and the answer to a request of another
    client is what it would have been without it. *)
Theorem clients_are_counted_apart cfg now now' req req' s :
  key_of req <> key_of req' ->
  snd (rateLimitMiddleware cfg now req s) !! key_of req' = s !! key_of req'
  /\ fst (rateLimitMiddleware cfg now' req' (snd (rateLimitMiddleware cfg now req s)))
     = fst (rateLimitMiddleware cfg now' req' s).
Proof.
  intros Hne.
  assert (Hother : snd (rateLimitMiddleware cfg now req s) !! key_of req' = s !! key_of req').
  { unfold rateLimitMiddleware. destruct (Js.startsWith "/api/" (path req)); cbn [negb];
      [|reflexivity]. cbv zeta.
    destruct (count _ >? maxRequests cfg); cbn [snd]; now rewrite lookup_insert_ne. }
  split; [exact Hother|].
  unfold rateLimitMiddleware at 1 3.
  destruct (Js.startsWith "/api/" (path req')); cbn [negb]; [|reflexivity]. cbv zeta.
  rewrite Hother.
  now destruct (count (counted cfg now' (s !! key_of req')) >? maxRequests cfg).
Qed.

Lemma counted_cleanup cfg now now' key s :
  now <= now' ->
  counted cfg now' (cleanup cfg now s !! key) = counted cfg now' (s !! key).
Proof.
  intros Hclock. unfold cleanup.
  destruct (s !! key) as [d|] eqn:Hs.
  - destruct (decide (now - resetTime d > windowMs cfg)) as [Hold|Hkeep].
    + assert (Hgone : filter (fun entry => ~ (now - resetTime (snd entry) > windowMs cfg)) s
                       !! key = None).
      { apply map_lookup_filter_None. right. intros x Hx. rewrite Hs in Hx.
        injection Hx as <-. cbn. tauto. }
      rewrite Hgone. cbn.
      destruct (Z.gtb_spec (now' - resetTime d) (windowMs cfg)); [reflexivity|lia].
    + assert (Hkept : filter (fun entry => ~ (now - resetTime (snd entry) > windowMs cfg)) s
                       !! key = Some d).
      { apply map_lookup_filter_Some. split; [exact Hs|exact Hkeep]. }
      now rewrite Hkept.
  - assert (Hgone : filter (fun entry => ~ (now - resetTime (snd entry) > windowMs cfg)) s
                     !! key = None).
    { apply map_lookup_filter_None. now left. }
    now rewrite Hgone.
Qed.

(** X15. The periodic cleanup is not seen by clients: a request that
    comes after it gets the answer it would have got without the
    cleanup, a request to the API leaves the record it would have left,
    and a window that is still running is not removed. *)
Theorem cleanup_is_unseen cfg now now' req s :
  now <= now' ->
  fst (rateLimitMiddleware cfg now' req (cleanup cfg now s))
  = fst (rateLimitMiddleware cfg now' req s)
  /\ (Js.startsWith "/api/" (path req) = true ->
      snd (rateLimitMiddleware cfg now' req (cleanup cfg now s)) !! key_of req
      = snd (rateLimitMiddleware cfg now' req s) !! key_of req)
  /\ forall key d, s !! key = Some d -> now - resetTime d <= windowMs cfg ->
       cleanup cfg now s !! key = Some d.
Proof.
  intros Hclock. split; [|split].
  - unfold rateLimitMiddleware.
    destruct (Js.startsWith "/api/" (path req)); cbn [negb]; [|reflexivity]. cbv zeta.
    rewrite counted_cleanup by assumption.
    now destruct (count _ >? maxRequests cfg).
  - intros Hapi. rewrite !middleware_api by assumption. cbv zeta. cbn [snd].
    now rewrite counted_cleanup, !lookup_insert_eq by assumption.
  - intros key d Hs Hd. unfold cleanup. apply map_lookup_filter_Some.
    split; [exact Hs|]. cbn. lia.
Qed.

(** X16. The status endpoint reports what the middleware has just told
    the client: after a request to the API, the limit, the remaining
    count and the end of the window in the status of that client are
    those of the headers of the answer. A client that has not been
    counted has the whole limit remaining. *)
Theorem status_agrees_with_headers cfg now req s h :
  headers_of (fst (rateLimitMiddleware cfg now req s)) = Some h ->
  st_limit (rate_limit_status cfg req (snd (rateLimitMiddleware cfg now req s))) = limit h
  /\ st_remaining (rate_limit_status cfg req (snd (rateLimitMiddleware cfg now req s)))
     = remaining h
  /\ st_resetTime (rate_limit_status cfg req (snd (rateLimitMiddleware cfg now req s)))
     = Some (reset h)
  /\ forall other, s !! key_of other = None ->
       rate_limit_status cfg other s
       = Status 0 (maxRequests cfg) (maxRequests cfg) None.
Proof.
  unfold rateLimitMiddleware.
  destruct (Js.startsWith "/api/" (path req)); cbn [negb]; [|discriminate]. cbv zeta.
  intros Hh. split; [|split; [|split]].
  4: { intros other Ho. unfold rate_limit_status. now rewrite Ho. }
  all: unfold rate_limit_status;
    destruct (count _ >? maxRequests cfg); cbn [fst snd headers_of] in *;
    rewrite lookup_insert_eq; injection Hh as <-; reflexivity.
Qed.

End RateLimiterFacts.

(** ** The request statistics *)

Module AnalyticsFacts.

Import Analytics.

Lemma route_count_step req st route :
  route_count (analyticsMiddleware req st) route
  = route_count st route + (if decide (path req = route) then 1 else 0).
Proof.
  unfold route_count, analyticsMiddleware. cbn [routes].
  destruct (decide (path req = route)) as [<-|Hne].
  - rewrite lookup_insert_eq. cbn. now destruct (routes st !! path req).
  - rewrite lookup_insert_ne by assumption. lia.
Qed.

Lemma method_count_step req st route m :
  method_count (analyticsMiddleware req st) route m
  = method_count st route m
    + (if decide (path req = route) then if decide (method req = m) then 1 else 0 else 0).
Proof.
  unfold method_count, analyticsMiddleware. cbn [routes].
  destruct (decide (path req = route)) as [<-|Hne].
  - rewrite lookup_insert_eq. cbn [methods].
    destruct (decide (method req = m)) as [<-|Hm].
    + rewrite lookup_insert_eq. cbn.
      destruct (routes st !! path req) as [r|]; cbn; [|reflexivity].
      now destruct (methods r !! method req).
    + rewrite lookup_insert_ne by assumption.
      destruct (routes st !! path req) as [r|]; cbn; [lia|].
      rewrite lookup_empty. reflexivity.
  - rewrite lookup_insert_ne by assumption. lia.
Qed.

Lemma after_counts reqs : forall st,
  requests (after reqs st) = requests st + length reqs
  /\ (forall route, route_count (after reqs st) route
                    = route_count st route + length (to_route route reqs))
  /\ (forall route m, method_count (after reqs st) route m
                      = method_count st route m
                        + length (with_method m (to_route route reqs)))
  /\ (forall route, routes (after reqs st) !! route = None
                    <-> routes st !! route = None /\ to_route route reqs = []).
Proof.
  unfold after, to_route, with_method.
  induction reqs as [|req reqs IH]; intros st; cbn [fold_left].
  - cbn. repeat split; auto; try lia. tauto.
  - destruct (IH (analyticsMiddleware req st)) as (Hr & Hc & Hm & Hn).
    split; [|split; [|split]].
    + rewrite Hr. cbn. lia.
    + intros route. rewrite Hc, route_count_step, filter_cons.
      destruct (decide (path req = route)); cbn; lia.
    + intros route m. rewrite Hm, method_count_step, filter_cons.
      destruct (decide (path req = route)); [|lia].
      rewrite filter_cons. destruct (decide (method req = m)); cbn; lia.
    + intros route. rewrite Hn, filter_cons. unfold analyticsMiddleware. cbn [routes].
      destruct (decide (path req = route)) as [<-|Hne].
      * rewrite lookup_insert_eq. split; [intros [? _]; discriminate|intros [_ ?]; discriminate].
      * now rewrite lookup_insert_ne by assumption.
Qed.

(** X17. The statistics are exact. After any requests, [requests] is
    their number, the counter of a route is the number of requests for
    that path, the counter of a method under a route is the number of
    those made with that method, and a route has an entry exactly when it
    was requested. *)
Theorem statistics_are_exact (reqs : list request) :
  requests (after reqs initial) = length reqs
  /\ (forall route, route_count (after reqs initial) route = length (to_route route reqs))
  /\ (forall route m,
        method_count (after reqs initial) route m
        = length (with_method m (to_route route reqs)))
  /\ (forall route, routes (after reqs initial) !! route = None <-> to_route route reqs = []).
Proof.
  destruct (after_counts reqs initial) as (Hr & Hc & Hm & Hn).
  split; [exact Hr|]. split; [|split].
  - intros route. rewrite Hc. unfold route_count, initial. cbn. now rewrite lookup_empty.
  - intros route m. rewrite Hm. unfold method_count, initial. cbn. now rewrite lookup_empty.
  - intros route. rewrite Hn. unfold initial. cbn. rewrite lookup_empty. tauto.
Qed.

End AnalyticsFacts.

(** ** The entry point *)

Module StartupFacts.

Import Startup.

Section Facts.

Variable host : Host express.
Variable pluginsDir : string.
Variable app : value.
Variable port : value.
Variable port_text : string.
Variable server : value.

Abbreviation bootstrap := (bootstrap host pluginsDir app port port_text server).
Abbreviation load_and_init := (load_and_init host pluginsDir app).
Abbreviation app_listen := (app_listen port port_text server).
Abbreviation started := (started port port_text server).

Lemma uses_installed (mws : list middlewareFn) (w : world express) :
  for_of mws app_use w
  = (Normal tt,
     World (this w) (console w) (history w)
           (Express (stack (outside w) ++ map Use mws) (port_free (outside w))
                    (listening (outside w)))).
Proof.
  revert w. induction mws as [|mw mws IH]; intros w; cbn [for_of map].
  - unfold ret. rewrite app_nil_r. now destruct w as [s c h [st p l]].
  - unfold bind, app_use at 1, on_app. rewrite IH.
    cbn [this console history outside stack port_free listening].
    now rewrite <- app_assoc.
Qed.

Lemma bind_twice {A B C} (c : M express A) (k : A -> M express B) (k' : B -> M express C) w :
  bind c (fun a => bind (k a) k') w
  = match bind c k w with
    | (Normal b, w') => k' b w'
    | (Throw e, w') => (Throw e, w')
    end.
Proof.
  unfold bind. destruct (c w) as [[a|e] w1]; [|reflexivity].
  now destruct (k a w1) as [[b|e] w2].
Qed.

Lemma started_runs (w : world express) :
  exists w',
    started w = (Normal tt, w')
    /\ this w' = this w
    /\ hook_runs (history w') = hook_runs (history w) ++ ["app:start"]
    /\ init_calls (history w') = init_calls (history w).
Proof.
  unfold Startup.started, list_, console_log, print, get_this, ret, bind.
  cbn beta iota delta [this console history outside]. rewrite runHook_thread. cbv zeta.
  eexists. split; [reflexivity|]. cbn [this history].
  rewrite hook_runs_app, init_calls_app. cbn.
  now rewrite hook_runs_callbacks, init_calls_callbacks, app_nil_r.
Qed.

Lemma listen_cases (w : world express) :
  (port_free (outside w) = false /\ app_listen w = (Normal PortTaken, w))
  \/ (port_free (outside w) = true
      /\ exists w3, app_listen w = (Normal Serving, w3)
                    /\ this w3 = this w
                    /\ hook_runs (history w3) = hook_runs (history w) ++ ["app:start"]
                    /\ init_calls (history w3) = init_calls (history w)).
Proof.
  unfold Startup.app_listen. destruct (port_free (outside w)); [right|left; auto].
  split; [reflexivity|]. unfold bind at 1. unfold bind at 1, on_app.
  match goal with |- context [started ?x] => destruct (started_runs x) as (w3 & -> & H) end.
  exists w3. split; [reflexivity|exact H].
Qed.

Lemma listen_never_throws (w : world express) :
  match app_listen w with
  | (Normal _, _) => True
  | (Throw _, _) => False
  end.
Proof.
  destruct (listen_cases w) as [[_ ->]|(_ & w3 & -> & _)]; exact I.
Qed.

(** After [init], [bootstrap] comes to [app.listen] with the stack
    built. *)
Lemma bootstrap_unfold (w : world express) :
  bootstrap w
  = match load_and_init w with
    | (Normal _, w2) => app_listen (installed w2)
    | (Throw e, w2) => (Normal (Exited 1), failed e w2)
    end.
Proof.
  unfold Startup.bootstrap, try_catch. rewrite bind_twice.
  fold load_and_init. destruct (load_and_init w) as [[[]|e] w2]; [|reflexivity].
  assert (Hrest : forall r, app_listen (installed w2) = r ->
            (let! middleware := getMiddleware in
             for_of middleware app_use ;;
             app_get "/" ;; app_get "/api/plugins" ;; app_use_error_handler ;;
             app_listen) w2 = r).
  { intros r <-. unfold bind at 1, getMiddleware, bind at 1, get_this, ret.
    unfold bind at 1. rewrite uses_installed.
    unfold bind, app_get, app_use_error_handler, on_app.
    cbn [this console history outside stack port_free listening].
    rewrite <- !app_assoc. reflexivity. }
  rewrite (Hrest _ eq_refl).
  pose proof (listen_never_throws (installed w2)) as Hn.
  now destruct (app_listen (installed w2)) as [[r|e] w3].
Qed.

(** X19. When loading and [init] return, [app.listen] is called on a
    stack that is the one [init] left, then the middleware of the manager
    in the order of [getMiddleware()], then the routes of the application
    and its error handler: whatever a plugin's [init] put on the stack
    itself comes before every middleware a plugin handed to the manager.
    On a free port the server then listens and the ["app:start"] hook is
    run, once, with the manager as [init] left it. *)
Theorem startup_installs_middleware_after_init (w w2 : world express) :
  load_and_init w = (Normal tt, w2) ->
  bootstrap w = app_listen (installed w2)
  /\ stack (outside (installed w2))
     = stack (outside w2) ++ map Use (middleware (this w2))
         ++ [Route "/"; Route "/api/plugins"; ErrorHandler]
  /\ (port_free (outside w2) = false -> bootstrap w = (Normal PortTaken, installed w2))
  /\ (port_free (outside w2) = true ->
      exists w3,
        bootstrap w = (Normal Serving, w3)
        /\ this w3 = this w2
        /\ hook_runs (history w3) = hook_runs (history w2) ++ ["app:start"]
        /\ init_calls (history w3) = init_calls (history w2)).
Proof.
  intros Hphase. rewrite bootstrap_unfold, Hphase.
  split; [reflexivity|]. split; [reflexivity|].
  destruct (listen_cases (installed w2)) as [[Hp ->]|(Hp & w3 & -> & H)];
    cbn [installed outside port_free] in Hp; split; intros Hfree; try congruence.
  exists w3. split; [reflexivity|exact H].
Qed.

End Facts.

End StartupFacts.

(** ** The properties above at work *)

Module Checks.

Import Examples.

Lemma registry_stays_sound_witness :
  NoDup (map l_name (list_of (this (run_ops pair
           [OpLoadFromDirectory "/srv/app/plugins"; OpRegister "a" bare; OpDisable "b"] start))))
  /\ forall name d,
       get (plugins (this (run_ops pair
              [OpLoadFromDirectory "/srv/app/plugins"; OpRegister "a" bare; OpDisable "b"] start)))
           name = Some d ->
       exists f, plugin_init (instance d) = InitFunction f.
Proof.
  apply (registry_stays_sound pair
           [OpLoadFromDirectory "/srv/app/plugins"; OpRegister "a" bare; OpDisable "b"] start).
  split; constructor.
Defined.

Lemma new_callback_runs_last_witness :
  fst (runHook "x" (VNum 1) (snd (registerHook "x" (returns (VNum 5)) chained)))
  = Normal (next_input (VStr "w")
                       (fst (returns (VNum 5) (VStr "w")
                                     (outside (snd (runHook "x" (VNum 1) chained)))))).
Proof.
  apply (new_callback_runs_last "x" (returns (VNum 5)) (VNum 1) chained
           (snd (runHook "x" (VNum 1) chained)) (VStr "w")).
  reflexivity.
Defined.

Lemma load_twice_witness :
  exists w2,
    load pair "/srv/app/plugins/a.js" (snd (load pair "/srv/app/plugins/a.js" start))
    = (Throw (already_registered "a"), w2)
    /\ this w2 = this (snd (load pair "/srv/app/plugins/a.js" start))
    /\ has (plugins (this w2)) "a" = true.
Proof.
  apply (load_twice pair "/srv/app/plugins/a.js" "a" start (snd (load pair "/srv/app/plugins/a.js" start))).
  reflexivity.
Defined.

Lemma name_of_plain_file_witness :
  file_name ("plugins" ++ "/" ++ "logger" ++ ".js") = "logger".
Proof.
  apply (name_of_plain_file bare "plugins" "logger"); reflexivity.
Defined.

Lemma disable_then_enable_witness :
  this (snd (enable "first" (snd (disable "first" ready)))) = this ready.
Proof.
  apply (proj2 (disable_then_enable "first" ready) (PluginData first true no_metadata));
    reflexivity.
Defined.

Import RateLimiter Cases.
Local Open Scope Z_scope.

Lemma burst_is_cut_at_the_limit_witness :
  map passed (fst (serve the_config from_a [0; 10; 20] nobody))
  = map (fun i => Z.of_nat i <? maxRequests the_config) (seq 0 3)
  /\ snd (serve the_config from_a [0; 10; 20] nobody) !! key_of from_a
     = Some (RequestData (Z.of_nat 3) 0).
Proof.
  apply (RateLimiterFacts.burst_is_cut_at_the_limit the_config from_a 0 [10; 20] nobody).
  - reflexivity.
  - exact I.
  - repeat constructor; cbn; lia.
Defined.

Lemma refusal_is_well_formed_witness :
  remaining (Headers 0 0 60005) = 0
  /\ limit (Headers 0 0 60005) = maxRequests closed
  /\ message closed = message closed
  /\ 60 = ceil_div (reset (Headers 0 0 60005) - 5) 1000
  /\ 0 <= 60
  /\ (reset (Headers 0 0 60005) - windowMs closed <= 5 -> 60 <= ceil_div (windowMs closed) 1000).
Proof.
  apply (RateLimiterFacts.refusal_is_well_formed closed 5 from_a nobody (Headers 0 0 60005) (message closed) 60).
  - cbn. lia.
  - reflexivity.
Defined.

Lemma clients_are_counted_apart_witness :
  snd (rateLimitMiddleware the_config 0 from_a nobody) !! key_of from_b = nobody !! key_of from_b
  /\ fst (rateLimitMiddleware the_config 5 from_b (snd (rateLimitMiddleware the_config 0 from_a nobody)))
     = fst (rateLimitMiddleware the_config 5 from_b nobody).
Proof.
  apply (RateLimiterFacts.clients_are_counted_apart the_config 0 5 from_a from_b nobody).
  cbn. discriminate.
Defined.

Lemma cleanup_is_unseen_witness :
  fst (rateLimitMiddleware the_config 70000 from_a
         (cleanup the_config 61000 (snd (rateLimitMiddleware the_config 0 from_a nobody))))
  = fst (rateLimitMiddleware the_config 70000 from_a
           (snd (rateLimitMiddleware the_config 0 from_a nobody))).
Proof.
  apply (RateLimiterFacts.cleanup_is_unseen the_config 61000 70000 from_a
           (snd (rateLimitMiddleware the_config 0 from_a nobody))).
  lia.
Defined.

Lemma status_agrees_with_headers_witness :
  st_remaining (rate_limit_status the_config from_a
                  (snd (rateLimitMiddleware the_config 0 from_a nobody)))
  = remaining (Headers 100 99 60000).
Proof.
  apply (RateLimiterFacts.status_agrees_with_headers the_config 0 from_a nobody (Headers 100 99 60000)).
  reflexivity.
Defined.

Import Startup.
Local Close Scope Z_scope.

Lemma startup_installs_middleware_after_init_witness :
  stack (outside (installed (snd (load_and_init (site with_route) "plugins" app cold))))
  = stack (outside (snd (load_and_init (site with_route) "plugins" app cold)))
      ++ map Use (middleware (this (snd (load_and_init (site with_route) "plugins" app cold))))
      ++ [Route "/"; Route "/api/plugins"; ErrorHandler].
Proof.
  apply (StartupFacts.startup_installs_middleware_after_init
           (site with_route) "plugins" app port "3000" server cold
           (snd (load_and_init (site with_route) "plugins" app cold))).
  reflexivity.
Defined.

Example plugin_route_precedes_plugin_middleware :
  stack (outside (snd (bootstrap (site with_route) "plugins" app port "3000" server cold)))
  = [Use 0; Use 1; Route "/api/haikus"; Use 7; Route "/"; Route "/api/plugins"; ErrorHandler]
  /\ fst (bootstrap (site with_route) "plugins" app port "3000" server cold) = Normal Serving
  /\ hook_runs (history (snd (bootstrap (site with_route) "plugins" app port "3000" server cold)))
     = ["plugins:initialized"; "app:start"].
Proof. repeat split; vm_compute; reflexivity. Qed.

End Checks.
